(** * Burp AI Bridge: the capture store and the HTTP handler

    A shallow embedding of [burp_ai_bridge.py].

    - Python text is [string] (characters are 8-bit code points, as Burp's
      byte-to-character mapping produces them); raw buffers are
      [list byte]; Python integers are [Z].
    - The extension runs on Jython: the builtins [str] and [int] are
      modelled as Jython evaluates them.
    - A capture entry is the Python dict the callback builds: a
      [gmap string value].
    - The collaborators supplied by Burp (the helpers object and the
      intercepted message) are records of functions and values; a helper
      call that throws is a [Raise] in the [result] monad.
    - Every function runs to completion on the state it is given: the
      interleaving of threads is not part of the model. *)

From Stdlib Require Import ZArith NArith Ascii String Strings.Byte Decimal DecimalString.
From Stdlib Require Import DecimalPos.
From stdpp Require Import base option list gmap fin_maps fin_sets strings.

Local Open Scope string_scope.
Local Open Scope Z_scope.
Local Open Scope list_scope.

(** ** Exceptions *)

Inductive result (A : Type) : Type :=
  | Ok (a : A)
  | Raise (exn : string).
Arguments Ok {A} a.
Arguments Raise {A} exn.

Global Instance result_ret : MRet result := λ A a, Ok a.

Global Instance result_bind : MBind result := λ A B k r,
  match r with
  | Ok a => k a
  | Raise e => Raise e
  end.

(** ** Values stored in an entry *)

Inductive value : Type :=
  | VInt (n : Z)
  | VStr (s : string)
  | VList (l : list string).

Global Instance value_eq_dec : EqDecision value.
Proof. solve_decision. Defined.

Definition value_to_sum (v : value) : Z + (string + list string) :=
  match v with
  | VInt n => inl n
  | VStr s => inr (inl s)
  | VList l => inr (inr l)
  end.

Definition value_of_sum (x : Z + (string + list string)) : value :=
  match x with
  | inl n => VInt n
  | inr (inl s) => VStr s
  | inr (inr l) => VList l
  end.

Global Instance value_countable : Countable value.
Proof.
  apply (inj_countable' value_to_sum value_of_sum).
  intros []; reflexivity.
Defined.

(** ** The Burp interfaces the callback reads *)

Record IHttpService : Type := {
  getHost : string;
  getPort : Z;
  getProtocol : string;
}.

(** [None] is Java's [null]. *)
Record IHttpRequestResponse : Type := {
  getRequest : option (list byte);
  getResponse : option (list byte);
  getHttpService : IHttpService;
}.

Record IInterceptedProxyMessage : Type := {
  getMessageInfo : IHttpRequestResponse;
}.

Record IRequestInfo : Type := {
  getMethod : string;
  getUrl : string;
  getHeaders : list string;
}.

Record IResponseInfo : Type := {
  getStatusCode : Z;
  getResponseHeaders : list string;
}.

Record IExtensionHelpers : Type := {
  bytesToString : list byte → string;
  analyzeRequest : IHttpRequestResponse → result IRequestInfo;
  analyzeResponse : list byte → result IResponseInfo;
}.

(** ** base64.b64encode *)

Definition b64_alphabet : string :=
  "ABCDEFGHIJKLMNOPQRSTUVWXYZabcdefghijklmnopqrstuvwxyz0123456789+/".

Definition b64_char (n : N) : ascii :=
  match String.get (N.to_nat n) b64_alphabet with
  | Some c => c
  | None => "="%char
  end.

Fixpoint b64encode (bs : list byte) : string :=
  match bs with
  | [] => ""
  | [a] =>
      let n := N.shiftl (Byte.to_N a) 16 in
      String (b64_char (N.land (N.shiftr n 18) 63))
        (String (b64_char (N.land (N.shiftr n 12) 63)) "==")
  | [a; b] =>
      let n := N.lor (N.shiftl (Byte.to_N a) 16) (N.shiftl (Byte.to_N b) 8) in
      String (b64_char (N.land (N.shiftr n 18) 63))
        (String (b64_char (N.land (N.shiftr n 12) 63))
           (String (b64_char (N.land (N.shiftr n 6) 63)) "="))
  | a :: b :: c :: rest =>
      let n := N.lor (N.lor (N.shiftl (Byte.to_N a) 16)
                        (N.shiftl (Byte.to_N b) 8)) (Byte.to_N c) in
      String (b64_char (N.land (N.shiftr n 18) 63))
        (String (b64_char (N.land (N.shiftr n 12) 63))
           (String (b64_char (N.land (N.shiftr n 6) 63))
              (String (b64_char (N.land n 63)) (b64encode rest))))
  end.

(** ** BurpExtender *)

Definition VERSION : string := "1.0.0".
Definition AUTHOR : string := "Can Hieu".

Record BurpExtender : Type := {
  _helpers : IExtensionHelpers;
  _history : list (gmap string value);
  _max_history : nat;
  _port : Z;
  _running : bool;
}.

Definition registerExtenderCallbacks (helpers : IExtensionHelpers) : BurpExtender :=
  {| _helpers := helpers;
     _history := [];
     _max_history := 1000;
     _port := 8899;
     _running := true |}.

Definition set_history (self : BurpExtender) (h : list (gmap string value)) : BurpExtender :=
  {| _helpers := _helpers self;
     _history := h;
     _max_history := _max_history self;
     _port := _port self;
     _running := _running self |}.

(** Truth value of a Java byte array seen from Python: [null] and the
    empty array are false. *)
Definition truthy_bytes (o : option (list byte)) : bool :=
  match o with
  | Some (_ :: _) => true
  | _ => false
  end.

Definition bytes_of (o : option (list byte)) : list byte := default [] o.

(** Every character is below 128. *)
Fixpoint all_ascii (s : string) : bool :=
  match s with
  | EmptyString => true
  | String c s' => (N_of_ascii c <? 128)%N && all_ascii s'
  end.

(** [str(x)] where [x] is text that came from Java. The extension runs
    on Jython, where such text is [unicode] and [str] encodes it with the
    ascii codec: a character above 127 raises [UnicodeEncodeError]. *)
Definition py_str (s : string) : result string :=
  if all_ascii s then Ok s else Raise "UnicodeEncodeError".

(** A list comprehension [[f(x) for x in l]] whose element expression
    can raise: the first failure ends it. *)
Fixpoint comprehension {A B : Type} (f : A → result B) (l : list A) : result (list B) :=
  match l with
  | [] => Ok []
  | x :: l' => y ← f x; ys ← comprehension f l'; Ok (y :: ys)
  end.


(** Lines 65-95 of [processProxyMessage]: the entry the call is about to
    append, [None] when the guards skip the message. The statements run
    in the order of the source, so the first one that raises decides the
    exception: the request analysis, [str] of the url, [str] of a request
    header, the response analysis, [str] of a response header. *)
Definition build_entry (self : BurpExtender) (messageIsRequest : bool)
    (message : IInterceptedProxyMessage) : result (option (gmap string value)) :=
  if negb messageIsRequest then
    let messageInfo := getMessageInfo message in
    let request := getRequest messageInfo in
    let response := getResponse messageInfo in
    let httpService := getHttpService messageInfo in
    if truthy_bytes request && truthy_bytes response then
      let entry : gmap string value :=
        <["response_length" := VInt (Z.of_nat (length (bytes_of response)))]>
        (<["request_text" := VStr (bytesToString (_helpers self) (bytes_of request))]>
        (<["response" := VStr (b64encode (bytes_of response))]>
        (<["request" := VStr (b64encode (bytes_of request))]>
        (<["protocol" := VStr (getProtocol httpService)]>
        (<["port" := VInt (getPort httpService)]>
        (<["host" := VStr (getHost httpService)]>
        (<["index" := VInt (Z.of_nat (length (_history self)))]> ∅))))))) in
      requestInfo ← analyzeRequest (_helpers self) messageInfo ;
      let entry := <["method" := VStr (getMethod requestInfo)]> entry in
      url ← py_str (getUrl requestInfo) ;
      let entry := <["url" := VStr url]> entry in
      headers ← comprehension py_str (getHeaders requestInfo) ;
      let entry := <["headers" := VList headers]> entry in
      entry ←
        (if truthy_bytes response then
           responseInfo ← analyzeResponse (_helpers self) (bytes_of response) ;
           let entry := <["status_code" := VInt (getStatusCode responseInfo)]> entry in
           response_headers ← comprehension py_str (getResponseHeaders responseInfo) ;
           Ok (<["response_headers" := VList response_headers]> entry)
         else Ok entry) ;
      Ok (Some entry)
    else Ok None
  else Ok None.

(** Lines 97-101: append, then drop the head when over the limit. *)
Definition store_append (entry : gmap string value) (self : BurpExtender) : BurpExtender :=
  let history := _history self ++ [entry] in
  if Nat.ltb (_max_history self) (length history)
  then set_history self (tail history)
  else set_history self history.

Definition processProxyMessage (self : BurpExtender) (messageIsRequest : bool)
    (message : IInterceptedProxyMessage) : result BurpExtender :=
  o ← build_entry self messageIsRequest message ;
  match o with
  | Some entry => Ok (store_append entry self)
  | None => Ok self
  end.

Definition get_history (self : BurpExtender) : list (gmap string value) :=
  _history self.

Definition get_history_item (self : BurpExtender) (index : Z) : option (gmap string value) :=
  if ((0 <=? index)%Z && (index <? Z.of_nat (length (_history self)))%Z)
  then _history self !! Z.to_nat index
  else None.

(** Subscription [h[key]]: a missing key raises [KeyError]. *)
Definition getitem (h : gmap string value) (key : string) : result value :=
  match h !! key with
  | Some v => Ok v
  | None => Raise "KeyError"
  end.

(** Only integers and strings can be members of a Python set. *)
Definition hashable (v : value) : bool :=
  match v with
  | VList _ => false
  | _ => true
  end.

Definition py_set (l : list value) : result (gset value) :=
  if forallb hashable l then Ok (list_to_set l) else Raise "TypeError".

(** The dict [get_stats] returns has five fixed keys. The order in which
    [list(set(...))] enumerates a set is the order of [elements]. *)
Record stats : Type := {
  version : string;
  author : string;
  total_requests : nat;
  hosts : list value;
  methods : gmap value nat;
}.

Definition method_count (history : list (gmap string value)) (m : value) : nat :=
  length (filter (λ h, h !! "method" = Some m) history).

Definition get_stats (self : BurpExtender) : result stats :=
  host_list ← comprehension (λ h, getitem h "host") (_history self);
  host_set ← py_set host_list;
  method_list ← comprehension (λ h, getitem h "method") (_history self);
  method_set ← py_set method_list;
  Ok {| version := VERSION;
        author := AUTHOR;
        total_requests := length (_history self);
        hosts := elements host_set;
        methods := set_to_map (λ m, (m, method_count (_history self) m)) method_set |}.

(** [sum(d.values())] *)
Definition sum_values (d : gmap value nat) : nat :=
  sum_list ((map_to_list d).*2).

(** ** Driving the callback

    Burp calls [processProxyMessage] once per proxy event. The store is
    written by the last two statements of the callback only, so a call
    that raises leaves it as it was. *)

Definition deliver (self : BurpExtender) (ev : bool * IInterceptedProxyMessage) : BurpExtender :=
  match processProxyMessage self ev.1 ev.2 with
  | Ok self' => self'
  | Raise _ => self
  end.

Definition run_callbacks (self : BurpExtender) (evs : list (bool * IInterceptedProxyMessage)) : BurpExtender :=
  foldl deliver self evs.

(** The appends performed while the events are delivered, each with the
    store as it was when the call started. *)
Fixpoint append_trace (self : BurpExtender) (evs : list (bool * IInterceptedProxyMessage))
    : list (BurpExtender * gmap string value) :=
  match evs with
  | [] => []
  | ev :: evs' =>
      match build_entry self ev.1 ev.2 with
      | Ok (Some entry) => (self, entry) :: append_trace (store_append entry self) evs'
      | _ => append_trace self evs'
      end
  end.

Definition appended (self : BurpExtender) (evs : list (bool * IInterceptedProxyMessage))
    : list (gmap string value) :=
  (append_trace self evs).*2.

Definition index_field (entry : gmap string value) : option value := entry !! "index".

(** The lookup as the specification words it: the first retained entry
    whose [index] field equals [i]. *)
Definition getByIndex_by_field (self : BurpExtender) (i : Z) : option (gmap string value) :=
  head (filter (λ entry, index_field entry = Some (VInt i)) (_history self)).

(** ** json.dumps

    The encoder of Python 2.7's [json] module, which Jython runs, with
    its defaults: [ensure_ascii] on, separators [", "] and [": "], and
    an optional indent. Dict members are written in the order they are
    handed over. *)

Local Unset Elimination Schemes.
Inductive json : Type :=
  | JInt (n : Z)
  | JStr (s : string)
  | JArr (items : list json)
  | JObj (members : list (string * json)).
Local Set Elimination Schemes.

Definition DQUOTE : ascii := "034"%char.
Definition BACKSLASH : ascii := "092"%char.
Definition CR : ascii := "013"%char.
Definition LF : ascii := "010"%char.

Definition hex_digit (n : N) : ascii :=
  match String.get (N.to_nat n) "0123456789abcdef" with
  | Some c => c
  | None => "0"%char
  end.

(** ['\\u%04x' % ord(c)] for an 8-bit character *)
Definition unicode_escape (c : ascii) : string :=
  let n := N_of_ascii c in
  String BACKSLASH (String "u" (String "0" (String "0"
    (String (hex_digit (N.shiftr n 4)) (String (hex_digit (N.land n 15)) ""))))).

Definition escape_char (c : ascii) : string :=
  let n := N_of_ascii c in
  if (n =? 92)%N then String BACKSLASH (String BACKSLASH "")
  else if (n =? 34)%N then String BACKSLASH (String DQUOTE "")
  else if (n =? 8)%N then String BACKSLASH "b"
  else if (n =? 12)%N then String BACKSLASH "f"
  else if (n =? 10)%N then String BACKSLASH "n"
  else if (n =? 13)%N then String BACKSLASH "r"
  else if (n =? 9)%N then String BACKSLASH "t"
  else if (n <? 32)%N || (126 <? n)%N then unicode_escape c
  else String c "".

Fixpoint escape_string (s : string) : string :=
  match s with
  | EmptyString => ""
  | String c s' => escape_char c +:+ escape_string s'
  end.

Definition encode_basestring_ascii (s : string) : string :=
  String DQUOTE (escape_string s +:+ String DQUOTE "").

Definition str_of_int (n : Z) : string := NilZero.string_of_int (Z.to_int n).

Fixpoint spaces (n : nat) : string :=
  match n with
  | O => ""
  | S n' => String " " (spaces n')
  end.

Definition newline_indent (indent : option nat) (level : nat) : string :=
  match indent with
  | Some w => String LF (spaces (w * level))
  | None => ""
  end.

Fixpoint iterencode (indent : option nat) (level : nat) (o : json) : string :=
  match o with
  | JInt n => str_of_int n
  | JStr s => encode_basestring_ascii s
  | JArr [] => "[]"
  | JArr items =>
      "[" +:+ newline_indent indent (S level)
        +:+ String.concat (", " +:+ newline_indent indent (S level))
              (iterencode indent (S level) <$> items)
        +:+ newline_indent indent level +:+ "]"
  | JObj [] => "{}"
  | JObj members =>
      "{" +:+ newline_indent indent (S level)
        +:+ String.concat (", " +:+ newline_indent indent (S level))
              ((λ kv, encode_basestring_ascii kv.1 +:+ ": "
                        +:+ iterencode indent (S level) kv.2) <$> members)
        +:+ newline_indent indent level +:+ "}"
  end.

Definition dumps (o : json) (indent : option nat) : string := iterencode indent 0 o.

Definition value_to_json (v : value) : json :=
  match v with
  | VInt n => JInt n
  | VStr s => JStr s
  | VList l => JArr (JStr <$> l)
  end.

Definition entry_to_json (entry : gmap string value) : json :=
  JObj (prod_map id value_to_json <$> map_to_list entry).

(** A dict key that is not a string is written as its [str]. *)
Definition key_to_string (v : value) : string :=
  match v with
  | VInt n => str_of_int n
  | VStr s => s
  | VList _ => ""
  end.

Definition stats_to_json (s : stats) : json :=
  JObj [ ("version", JStr (version s));
         ("author", JStr (author s));
         ("total_requests", JInt (Z.of_nat (total_requests s)));
         ("hosts", JArr (value_to_json <$> hosts s));
         ("methods", JObj (prod_map key_to_string (λ n, JInt (Z.of_nat n))
                             <$> map_to_list (methods s))) ].

(** ** Text helpers of the handler *)

(** [s.split(sep)] for a non-empty separator: [skip] counts the characters
    of a matched separator that are still to be passed over. *)
Fixpoint split_go (sep : string) (s : string) (skip : nat) (cur : string) : list string :=
  match s with
  | EmptyString => [String.rev cur]
  | String c s' =>
      match skip with
      | S k => split_go sep s' k cur
      | O =>
          if String.prefix sep s
          then String.rev cur :: split_go sep s' (String.length sep - 1) ""
          else split_go sep s' 0 (String c cur)
      end
  end.

Definition split (s sep : string) : list string := split_go sep s 0 "".

Definition startswith (s p : string) : bool := String.prefix p s.

(** [java.lang.Character.isWhitespace] on 8-bit code points: the space,
    tab to carriage return, and the separators 28 to 31. *)
Definition is_space (c : ascii) : bool :=
  let n := N_of_ascii c in
  (n =? 32)%N || ((9 <=? n)%N && (n <=? 13)%N) || ((28 <=? n)%N && (n <=? 31)%N).

Fixpoint lstrip (s : string) : string :=
  match s with
  | EmptyString => ""
  | String c s' => if is_space c then lstrip s' else s
  end.

Definition strip (s : string) : string :=
  String.rev (lstrip (String.rev (lstrip s))).

Definition is_digit (c : ascii) : bool :=
  let n := N_of_ascii c in (48 <=? n)%N && (n <=? 57)%N.

Fixpoint digits_value (acc : Z) (s : string) : option Z :=
  match s with
  | EmptyString => Some acc
  | String c s' =>
      if is_digit c
      then digits_value (10 * acc + (Z.of_N (N_of_ascii c) - 48)) s'
      else None
  end.

Definition unsigned_literal (s : string) : result Z :=
  match s with
  | EmptyString => Raise "ValueError"
  | _ => match digits_value 0 s with
         | Some n => Ok n
         | None => Raise "ValueError"
         end
  end.

(** [new java.math.BigInteger(s, 10)]: one optional sign, then at least
    one decimal digit and nothing else. Its [NumberFormatException] is
    what Jython turns into [ValueError]. *)
Definition big_integer (s : string) : result Z :=
  match s with
  | String "+" d => unsigned_literal d
  | String "-" d => n ← unsigned_literal d; Ok (- n)
  | d => unsigned_literal d
  end.

(** [int(s)] on a string, as Jython evaluates it: white space is dropped
    at both ends; a sign, if one comes first, is taken off together with
    the white space after it; what is left goes to [BigInteger], behind a
    minus sign if that was the sign taken off. So [BigInteger] can find a
    sign of its own after a plus sign ([++1] is 1 and [+-1] is -1), but
    not after a minus sign ([-+1] and [--1] are rejected). A value past
    the 32-bit range comes back as a long. *)
Definition py_int (s : string) : result Z :=
  match strip s with
  | String "+" rest => big_integer (lstrip rest)
  | String "-" rest => big_integer (String "-" (lstrip rest))
  | d => big_integer d
  end.

(** [text.encode('utf-8')] on 8-bit code points *)
Definition byte_of_N (n : N) : byte := default "000"%byte (Byte.of_N n).

Fixpoint utf8_encode (s : string) : list byte :=
  match s with
  | EmptyString => []
  | String c s' =>
      let n := N_of_ascii c in
      if (n <? 128)%N then byte_of_ascii c :: utf8_encode s'
      else byte_of_N (N.lor 192 (N.shiftr n 6))
             :: byte_of_N (N.lor 128 (N.land n 63)) :: utf8_encode s'
  end.

(** ** RequestHandler *)

Definition CRLF : string := String CR (String LF "").

(** The read loop: one byte at a time until the stream ends or the last
    four characters read are CR LF CR LF. The stream is the finite
    sequence of bytes the client sends before it stops. *)
Fixpoint read_request (input_stream : list byte) (request_data : list ascii) : list ascii :=
  match input_stream with
  | [] => request_data
  | b :: rest =>
      let request_data := request_data ++ [ascii_of_byte b] in
      if Nat.leb 4 (length request_data)
         && bool_decide (drop (length request_data - 4) request_data = [CR; LF; CR; LF])
      then request_data
      else read_request rest request_data
  end.

Definition cors_headers : string :=
  "Access-Control-Allow-Origin: *" +:+ CRLF
  +:+ "Access-Control-Allow-Methods: GET, POST, OPTIONS" +:+ CRLF
  +:+ "Access-Control-Allow-Headers: Content-Type" +:+ CRLF.

(** The [try] block of the [/history/N] branch. *)
Definition history_item_route (extender : BurpExtender) (path : string) : result (string * string) :=
  segment ← match last (split path "/") with
            | Some segment => Ok segment
            | None => Raise "IndexError"
            end;
  index ← py_int segment;
  match get_history_item extender index with
  | Some item =>
      if bool_decide (item = ∅)
      then Ok ("404 Not Found", dumps (JObj [("error", JStr "Item not found")]) None)
      else Ok ("200 OK", dumps (entry_to_json item) (Some 2%nat))
  | None => Ok ("404 Not Found", dumps (JObj [("error", JStr "Item not found")]) None)
  end.

(** The routing chain: the status line text and the body. *)
Definition route (extender : BurpExtender) (method path : string) : result (string * string) :=
  if bool_decide (method = "OPTIONS") then Ok ("200 OK", "")
  else if bool_decide (path = "/health") then
    Ok ("200 OK", dumps (JObj [("status", JStr "ok");
                               ("extension", JStr "Burp AI Bridge");
                               ("version", JStr VERSION);
                               ("author", JStr AUTHOR)]) None)
  else if bool_decide (path = "/history") then
    Ok ("200 OK", dumps (JArr (entry_to_json <$> get_history extender)) (Some 2%nat))
  else if startswith path "/history/" then
    match history_item_route extender path with
    | Ok r => Ok r
    | Raise _ => Ok ("400 Bad Request", dumps (JObj [("error", JStr "Invalid index")]) None)
    end
  else if bool_decide (path = "/stats") then
    s ← get_stats extender;
    Ok ("200 OK", dumps (stats_to_json s) (Some 2%nat))
  else
    Ok ("404 Not Found",
        dumps (JObj [("error", JStr "Endpoint not found");
                     ("available", JArr [JStr "/health"; JStr "/history";
                                         JStr "/history/N"; JStr "/stats"])]) None).

Definition format_response (status body : string) : string :=
  "HTTP/1.1 " +:+ status +:+ CRLF +:+ cors_headers
  +:+ "Content-Type: application/json" +:+ CRLF
  +:+ "Content-Length: " +:+ str_of_int (Z.of_nat (String.length body)) +:+ CRLF
  +:+ "Connection: close" +:+ CRLF +:+ CRLF +:+ body.

(** What the client observes of one connection. *)
Record connection : Type := {
  written : list byte;
  closed : bool;
  logged : option string;
}.

Definition request_line_parts (input_stream : list byte) : list string :=
  let request := string_of_list_ascii (read_request input_stream []) in
  let lines := split request CRLF in
  match lines with
  | [] => []
  | line :: _ => split line " "
  end.

Definition RequestHandler_run (extender : BurpExtender) (input_stream : list byte) : connection :=
  let request := string_of_list_ascii (read_request input_stream []) in
  let lines := split request CRLF in
  match lines with
  | line :: _ =>
      match split line " " with
      | method :: path :: _ =>
          match route extender method path with
          | Ok (status, response_body) =>
              {| written := utf8_encode (format_response status response_body);
                 closed := true; logged := None |}
          | Raise e =>
              {| written := []; closed := true;
                 logged := Some ("[-] Request handler error: " +:+ e) |}
          end
      | _ => {| written := []; closed := true; logged := None |}
      end
  | [] => {| written := []; closed := true; logged := None |}
  end.

(** ** Sample collaborators, for the examples *)

Definition sample_helpers : IExtensionHelpers :=
  {| bytesToString := λ bs, string_of_list_ascii (ascii_of_byte <$> bs);
     analyzeRequest := λ _, Ok {| getMethod := "GET";
                                  getUrl := "http://example.com:80/";
                                  getHeaders := ["GET / HTTP/1.1"; "Host: example.com"] |};
     analyzeResponse := λ _, Ok {| getStatusCode := 200;
                                   getResponseHeaders := ["HTTP/1.1 200 OK"] |} |}.


(** Helpers that report a request header with a character above 127
    (e with an acute accent, code point 233). *)
Definition non_ascii_header_helpers : IExtensionHelpers :=
  {| bytesToString := bytesToString sample_helpers;
     analyzeRequest := λ _, Ok {| getMethod := "GET";
                                  getUrl := "http://example.com:80/";
                                  getHeaders := ["GET / HTTP/1.1";
                                                 "X: " +:+ String (ascii_of_N 233) ""] |};
     analyzeResponse := analyzeResponse sample_helpers |}.

Definition bytes_of_string (s : string) : list byte :=
  byte_of_ascii <$> list_ascii_of_string s.

Definition sample_service : IHttpService :=
  {| getHost := "example.com"; getPort := 80; getProtocol := "http" |}.

Definition sample_message : IInterceptedProxyMessage :=
  {| getMessageInfo :=
       {| getRequest := Some (bytes_of_string "GET / HTTP/1.1");
          getResponse := Some (bytes_of_string "HTTP/1.1 200 OK");
          getHttpService := sample_service |} |}.

Definition request_only_message : IInterceptedProxyMessage :=
  {| getMessageInfo :=
       {| getRequest := Some (bytes_of_string "GET / HTTP/1.1");
          getResponse := None;
          getHttpService := sample_service |} |}.

Definition sample_events (n : nat) : list (bool * IInterceptedProxyMessage) :=
  replicate n (false, sample_message).

Definition request_bytes (request_line : string) : list byte :=
  bytes_of_string (request_line +:+ CRLF +:+ CRLF).

(** The entries a store can hold: built by [build_entry]. *)
Definition built (entry : gmap string value) : Prop :=
  ∃ self messageIsRequest message,
    build_entry self messageIsRequest message = Ok (Some entry).

(** The stop test of the read loop: at least four characters were read
    and the last four are CR LF CR LF. *)
Definition headers_complete (request_data : list ascii) : bool :=
  Nat.leb 4 (length request_data)
  && bool_decide (drop (length request_data - 4) request_data = [CR; LF; CR; LF]).

(** The events that pass both guards of [processProxyMessage]. *)
Definition passes_guards (ev : bool * IInterceptedProxyMessage) : bool :=
  negb ev.1
  && (truthy_bytes (getRequest (getMessageInfo ev.2))
      && truthy_bytes (getResponse (getMessageInfo ev.2))).

(** The keys [processProxyMessage] sets. *)
Definition entry_keys : gset string :=
  list_to_set ["index"; "host"; "port"; "protocol"; "request"; "response";
               "request_text"; "response_length"; "method"; "url"; "headers";
               "status_code"; "response_headers"].

(** ** client_example.py

    The client runs on Python 3. An item is one element of the JSON array
    the server sends: a dict of the values the server stores. *)

(** [str.lower] on 8-bit code points: the ASCII capitals and the Latin-1
    capitals (all of 192..222 but the multiplication sign). *)
Definition lower_char (c : ascii) : ascii :=
  let n := N_of_ascii c in
  if ((65 <=? n)%N && (n <=? 90)%N)
     || ((192 <=? n)%N && (n <=? 222)%N && negb (n =? 215)%N)
  then ascii_of_N (n + 32)
  else c.

Fixpoint lower (s : string) : string :=
  match s with
  | EmptyString => ""
  | String c s' => String (lower_char c) (lower s')
  end.

(** [p in s] on strings *)
Fixpoint contains (p s : string) : bool :=
  String.prefix p s
  || match s with
     | EmptyString => false
     | String _ s' => contains p s'
     end.

(** [v.lower()]: only a string has the method. *)
Definition value_lower (v : value) : result string :=
  match v with
  | VStr s => Ok (lower s)
  | _ => Raise "AttributeError"
  end.

Definition ssrf_params : list string :=
  ["url="; "path="; "file="; "src="; "img="; "load="; "uri="; "target="].
Definition sqli_params : list string :=
  ["id="; "user="; "name="; "order="; "sort="; "query="; "search="].
Definition sensitive_params : list string :=
  ["password"; "token"; "api_key"; "secret"; "auth"; "key"].
Definition path_params : list string :=
  ["file="; "path="; "page="; "include="; "template="; "dir="].

(** [any(p in v.lower() for p in params)]; the parameter lists are not
    empty, so [v.lower()] is always evaluated. *)
Definition any_param_in (params : list string) (v : value) : result bool :=
  text ← value_lower v;
  Ok (existsb (λ p, contains p text) params).

Definition make_finding (type severity : string) (url method : value)
    (detail : string) : gmap string value :=
  <["detail" := VStr detail]>
  (<["method" := method]>
  (<["url" := url]>
  (<["severity" := VStr severity]>
  (<["type" := VStr type]> ∅)))).

(** The body of the loop of [analyze_for_vulns]: the findings one item
    adds. *)
Definition analyze_item (item : gmap string value) : result (list (gmap string value)) :=
  let url := default (VStr "") (item !! "url") in
  let method := default (VStr "") (item !! "method") in
  let request_text := default (VStr "") (item !! "request_text") in
  ssrf ← any_param_in ssrf_params url;
  let f1 := if (ssrf : bool) then
      [make_finding "Potential SSRF" "HIGH" url method
         "URL contains parameter that may accept user-controlled URLs"]
    else [] in
  sqli ← any_param_in sqli_params url;
  let f2 := if (sqli : bool) then
      [make_finding "Potential SQL Injection" "HIGH" url method
         "URL contains parameter that may be injectable"]
    else [] in
  sensitive ← any_param_in sensitive_params url;
  let f3 := if (sensitive : bool) then
      [make_finding "Sensitive Data in URL" "MEDIUM" url method
         "Sensitive parameter found in URL - may be logged"]
    else [] in
  text ← value_lower request_text;
  let f4 := if contains "multipart/form-data" text then
      [make_finding "File Upload Detected" "INFO" url method
         "File upload functionality - check for unrestricted upload"]
    else [] in
  traversal ← any_param_in path_params url;
  let f5 := if (traversal : bool) then
      [make_finding "Potential Path Traversal" "HIGH" url method
         "URL contains file/path parameter - test for LFI/RFI"]
    else [] in
  Ok (f1 ++ f2 ++ f3 ++ f4 ++ f5).

Fixpoint analyze_loop (history findings : list (gmap string value))
    : result (list (gmap string value)) :=
  match history with
  | [] => Ok findings
  | item :: rest =>
      fs ← analyze_item item;
      analyze_loop rest (findings ++ fs)
  end.

Definition analyze_for_vulns (history : list (gmap string value))
    : result (list (gmap string value)) :=
  analyze_loop history [].

(** The path [BurpBridge.get_history_item] asks for: the index written
    in decimal after [/history/]. *)
Definition history_item_path (index : Z) : string :=
  "/history/" +:+ str_of_int index.

(** Every character of the string passes the test. *)
Fixpoint all_chars (test : ascii → bool) (s : string) : bool :=
  match s with
  | EmptyString => true
  | String c s' => test c && all_chars test s'
  end.

(** What every finding of the scan says about the item it was made for:
    the item's url and method, and one of the three severities in use. *)
Definition finding_of (item f : gmap string value) : Prop :=
  f !! "url" = Some (default (VStr "") (item !! "url"))
  ∧ f !! "method" = Some (default (VStr "") (item !! "method"))
  ∧ (f !! "severity" = Some (VStr "HIGH")
     ∨ f !! "severity" = Some (VStr "MEDIUM")
     ∨ f !! "severity" = Some (VStr "INFO")).

(** * Properties of the store *)

Section store.

Implicit Types (self : BurpExtender) (entry : gmap string value).
Implicit Types (evs : list (bool * IInterceptedProxyMessage)).

Lemma store_append_max entry self :
  _max_history (store_append entry self) = _max_history self.
Proof. unfold store_append. by case_match. Qed.

Lemma store_append_helpers entry self :
  _helpers (store_append entry self) = _helpers self.
Proof. unfold store_append. by case_match. Qed.

Lemma store_append_history entry self :
  (length (_history self) ≤ _max_history self)%nat →
  _history (store_append entry self) =
    drop (length (_history self ++ [entry]) - _max_history self) (_history self ++ [entry]).
Proof.
  intros Hle. unfold store_append.
  rewrite length_app. simpl length.
  destruct (Nat.ltb_spec (_max_history self) (length (_history self) + 1)) as [Hlt|Hge]; simpl.
  - replace (length (_history self) + 1 - _max_history self)%nat with 1%nat by lia.
    by destruct (_history self ++ [entry]).
  - by replace (length (_history self) + 1 - _max_history self)%nat with 0%nat by lia.
Qed.

Lemma store_append_length entry self :
  (length (_history self) ≤ _max_history self)%nat →
  length (_history (store_append entry self)) =
    Nat.min (length (_history self) + 1) (_max_history self).
Proof.
  intros Hle. rewrite store_append_history by done.
  rewrite length_drop, length_app. simpl. lia.
Qed.

Lemma deliver_unfold self ev :
  deliver self ev =
    match build_entry self ev.1 ev.2 with
    | Ok (Some entry) => store_append entry self
    | _ => self
    end.
Proof.
  unfold deliver, processProxyMessage.
  destruct (build_entry self ev.1 ev.2) as [[entry|]|]; reflexivity.
Qed.

Lemma deliver_max self ev : _max_history (deliver self ev) = _max_history self.
Proof.
  rewrite deliver_unfold. repeat case_match; auto using store_append_max.
Qed.

Lemma deliver_bounded self ev :
  (length (_history self) ≤ _max_history self)%nat →
  (length (_history (deliver self ev)) ≤ _max_history (deliver self ev))%nat.
Proof.
  intros Hle. rewrite deliver_max, deliver_unfold.
  repeat case_match; try done.
  rewrite store_append_length by done. lia.
Qed.

Lemma run_callbacks_cons self ev evs :
  run_callbacks self (ev :: evs) = run_callbacks (deliver self ev) evs.
Proof. reflexivity. Qed.

Lemma run_callbacks_max evs self :
  _max_history (run_callbacks self evs) = _max_history self.
Proof.
  revert self. induction evs as [|ev evs IH]; intros self; [done|].
  rewrite run_callbacks_cons, IH. apply deliver_max.
Qed.

Lemma run_callbacks_bounded evs self :
  (length (_history self) ≤ _max_history self)%nat →
  (length (_history (run_callbacks self evs)) ≤ _max_history self)%nat.
Proof.
  revert self. induction evs as [|ev evs IH]; intros self Hle; [done|].
  rewrite run_callbacks_cons. rewrite <- (deliver_max self ev).
  apply IH, deliver_bounded, Hle.
Qed.

Lemma appended_cons self ev evs :
  appended self (ev :: evs) =
    match build_entry self ev.1 ev.2 with
    | Ok (Some entry) => entry :: appended (store_append entry self) evs
    | _ => appended self evs
    end.
Proof.
  unfold appended. simpl. repeat case_match; reflexivity.
Qed.

(** The store is always the tail end of everything it was given. *)
Lemma run_callbacks_history evs self :
  (length (_history self) ≤ _max_history self)%nat →
  _history (run_callbacks self evs) =
    drop (length (_history self ++ appended self evs) - _max_history self)
         (_history self ++ appended self evs).
Proof.
  revert self. induction evs as [|ev evs IH]; intros self Hle.
  - simpl. unfold appended. simpl. rewrite app_nil_r.
    by replace (length (_history self) - _max_history self)%nat with 0%nat by lia.
  - rewrite run_callbacks_cons, appended_cons, deliver_unfold.
    destruct (build_entry self ev.1 ev.2) as [[entry|]|]; [|by apply IH..].
    rewrite IH by (rewrite store_append_max, store_append_length by done; lia).
    rewrite store_append_max, store_append_history by done.
    set (h := _history self) in *. set (tr := appended _ evs).
    set (d := (length (h ++ [entry]) - _max_history self)%nat).
    assert (Hd : (d ≤ length (h ++ [entry]))%nat) by (unfold d; lia).
    replace (drop d (h ++ [entry]) ++ tr) with (drop d ((h ++ [entry]) ++ tr))
      by (by rewrite drop_app_le).
    rewrite drop_drop, <- (assoc_L (++)). simpl. f_equal.
    rewrite length_drop, !length_app. unfold d. rewrite !length_app. simpl. lia.
Qed.

Lemma elem_of_appended entry evs self :
  entry ∈ appended self evs → built entry.
Proof.
  revert self. induction evs as [|ev evs IH]; intros self.
  - unfold appended. simpl. by intros ?%elem_of_nil.
  - rewrite appended_cons.
    destruct (build_entry self ev.1 ev.2) as [[e|]|] eqn:Hb; [|by eauto..].
    intros [->|Hin]%elem_of_cons; [|by eauto].
    by exists self, ev.1, ev.2.
Qed.

Lemma elem_of_run_callbacks entry helpers evs :
  entry ∈ _history (run_callbacks (registerExtenderCallbacks helpers) evs) → built entry.
Proof.
  rewrite run_callbacks_history by (simpl; lia). simpl.
  intros Hin%subseteq_drop. by eapply elem_of_appended.
Qed.






(** What [build_entry] puts into an entry. *)
Lemma build_entry_fields self messageIsRequest message entry :
  build_entry self messageIsRequest message = Ok (Some entry) →
  entry !! "index" = Some (VInt (Z.of_nat (length (_history self))))
  ∧ entry !! "host" = Some (VStr (getHost (getHttpService (getMessageInfo message))))
  ∧ (∃ m, entry !! "method" = Some (VStr m))
  ∧ (∃ n, entry !! "status_code" = Some (VInt n))
  ∧ (∃ l, entry !! "response_headers" = Some (VList l)).
Proof.
  unfold build_entry.
  destruct messageIsRequest; simpl; [done|].
  destruct (truthy_bytes (getRequest _)); simpl; [|done].
  destruct (truthy_bytes (getResponse _)) eqn:Hresp; simpl; [|done].
  destruct (analyzeRequest _ _) as [requestInfo|]; simpl; [|done].
  destruct (py_str _) as [url|]; simpl; [|done].
  destruct (comprehension py_str _) as [headers|]; simpl; [|done].
  destruct (analyzeResponse _ _) as [responseInfo|]; simpl; [|done].
  destruct (comprehension py_str _) as [response_headers|]; simpl; [|done].
  intros [= <-]. repeat split; eauto; by simplify_map_eq.
Qed.

Lemma append_trace_lookup evs self k s entry :
  (length (_history self) ≤ _max_history self)%nat →
  append_trace self evs !! k = Some (s, entry) →
  _max_history s = _max_history self
  ∧ length (_history s) = Nat.min (length (_history self) + k) (_max_history self)
  ∧ index_field entry = Some (VInt (Z.of_nat (length (_history s)))).
Proof.
  revert self k. induction evs as [|ev evs IH]; intros self k Hle; [done|].
  simpl. destruct (build_entry self ev.1 ev.2) as [[e|]|] eqn:Hb; [|by eauto..].
  destruct k as [|k]; simpl.
  - intros [= <- <-]. split; [done|]. split; [lia|].
    by apply build_entry_fields in Hb as (? & _).
  - intros Hk. apply IH in Hk.
    + rewrite store_append_max, store_append_length in Hk by done.
      destruct Hk as (Hmax & Hlen & ?). repeat split; [done|lia|done].
    + rewrite store_append_max, store_append_length by done. lia.
Qed.

Lemma appended_lookup evs self k entry :
  appended self evs !! k = Some entry →
  ∃ s, append_trace self evs !! k = Some (s, entry).
Proof.
  unfold appended. rewrite list_lookup_fmap.
  destruct (append_trace self evs !! k) as [[s e]|]; simpl; [|done].
  intros [= <-]. by exists s.
Qed.

(** Searching a list whose [index] fields count up from [off]. *)
Lemma head_filter_index (l : list (gmap string value)) (off i : Z) :
  (∀ (k : nat) entry, l !! k = Some entry →
     index_field entry = Some (VInt (off + Z.of_nat k))) →
  head (filter (λ entry, index_field entry = Some (VInt i)) l) =
    if ((off <=? i)%Z && (i <? off + Z.of_nat (length l))%Z)
    then l !! Z.to_nat (i - off) else None.
Proof.
  revert off. induction l as [|e l IH]; intros off Hl.
  - simpl. by case_match.
  - pose proof (Hl 0%nat e eq_refl) as He. rewrite Z.add_0_r in He.
    rewrite filter_cons. destruct (decide (index_field e = Some (VInt i))) as [Hi|Hi].
    + rewrite He in Hi. injection Hi as ->.
      rewrite (proj2 (Z.leb_le i i)) by lia.
      rewrite (proj2 (Z.ltb_lt i _)) by (simpl length; lia).
      simpl. by rewrite Z.sub_diag.
    + assert (i ≠ off) by (intros ->; by rewrite He in Hi).
      rewrite (IH (off + 1)); last first.
      { intros k entry Hk. rewrite (Hl (S k) entry Hk). f_equal. f_equal. lia. }
      simpl length.
      destruct (Z.leb_spec off i), (Z.leb_spec (off + 1) i),
        (Z.ltb_spec i (off + 1 + Z.of_nat (length l))),
        (Z.ltb_spec i (off + Z.of_nat (S (length l)))); simpl; try lia; try done.
      replace (Z.to_nat (i - off)) with (S (Z.to_nat (i - (off + 1)))) by lia.
      done.
Qed.

End store.

(** * The claims about the store *)

(** C2. After any run of the callback from a fresh extender the store
    holds at most 1000 entries, also right after each single append; and
    once more than 1000 entries were appended it holds exactly the last
    1000 of them, oldest first. *)
Theorem store_keeps_last_max_history helpers evs :
  let self0 := registerExtenderCallbacks helpers in
  let tr := appended self0 evs in
  let final := run_callbacks self0 evs in
  (length (get_history final) ≤ 1000)%nat
  ∧ (∀ s entry, (s, entry) ∈ append_trace self0 evs →
       (length (get_history (store_append entry s)) ≤ 1000)%nat)
  ∧ ((1000 < length tr)%nat →
       length (get_history final) = 1000%nat
       ∧ get_history final = drop (length tr - 1000) tr).
Proof.
  intros self0 tr final. unfold get_history.
  assert (H0 : (length (_history self0) ≤ _max_history self0)%nat) by (simpl; lia).
  split; [|split].
  - apply (run_callbacks_bounded evs self0 H0).
  - intros s entry [k Hk]%list_elem_of_lookup.
    apply append_trace_lookup in Hk as (Hmax & Hlen & _); [|done].
    rewrite store_append_length by lia. rewrite Hmax. simpl. lia.
  - intros Hlt. unfold final. rewrite run_callbacks_history by done.
    simpl. fold tr. split; [|done]. rewrite length_drop. lia.
Qed.

Lemma store_keeps_last_max_history_witness :
  length (get_history (run_callbacks (registerExtenderCallbacks sample_helpers)
                         (sample_events 1001))) = 1000%nat.
Proof.
  destruct (store_keeps_last_max_history sample_helpers (sample_events 1001))
    as (_ & _ & H).
  apply H. vm_compute. lia.
Defined.

(** C3. Every append stamps the new entry with the length the store had
    when the call started, before the eviction of that same call. Hence
    the first entry appended carries 0 and the stamps never decrease
    along the sequence of appends. *)
Theorem index_is_length_before_append helpers evs :
  let self0 := registerExtenderCallbacks helpers in
  (∀ s entry, (s, entry) ∈ append_trace self0 evs →
     index_field entry = Some (VInt (Z.of_nat (length (get_history s)))))
  ∧ (∀ entry, appended self0 evs !! 0%nat = Some entry →
       index_field entry = Some (VInt 0))
  ∧ (∀ j k ej ek, (j ≤ k)%nat →
       appended self0 evs !! j = Some ej → appended self0 evs !! k = Some ek →
       ∃ nj nk, index_field ej = Some (VInt nj) ∧ index_field ek = Some (VInt nk)
                ∧ nj ≤ nk).
Proof.
  intros self0. unfold get_history.
  assert (H0 : (length (_history self0) ≤ _max_history self0)%nat) by (simpl; lia).
  split; [|split].
  - intros s entry [k Hk]%list_elem_of_lookup.
    by apply append_trace_lookup in Hk as (_ & _ & ?).
  - intros entry [s Hs]%appended_lookup.
    apply append_trace_lookup in Hs as (_ & Hlen & ->); [|done].
    simpl in Hlen. by rewrite Hlen.
  - intros j k ej ek Hjk [sj Hj]%appended_lookup [sk Hk]%appended_lookup.
    apply append_trace_lookup in Hj as (_ & Hlj & ->); [|done].
    apply append_trace_lookup in Hk as (_ & Hlk & ->); [|done].
    eexists _, _. split; [done|]. split; [done|]. lia.
Qed.

Lemma index_is_length_before_append_witness :
  ∃ entry, appended (registerExtenderCallbacks sample_helpers) (sample_events 3) !! 0%nat
             = Some entry
           ∧ index_field entry = Some (VInt 0).
Proof.
  destruct (index_is_length_before_append sample_helpers (sample_events 3))
    as (_ & H & _).
  eexists. split; [reflexivity|]. apply H. reflexivity.
Defined.

(** Once the store is full every further entry is stamped 1000: the
    stamps stop growing. *)
Example index_repeats_at_capacity :
  index_field <$> appended (registerExtenderCallbacks sample_helpers)
                    (sample_events 1002) !! 1000%nat = Some (Some (VInt 1000))
  ∧ index_field <$> appended (registerExtenderCallbacks sample_helpers)
                      (sample_events 1002) !! 1001%nat = Some (Some (VInt 1000)).
Proof. split; vm_compute; reflexivity. Qed.

(** C10. Every entry the store retains has the [status_code] and
    [response_headers] fields. *)
Theorem retained_entries_have_response_fields helpers evs entry :
  entry ∈ get_history (run_callbacks (registerExtenderCallbacks helpers) evs) →
  is_Some (entry !! "status_code") ∧ is_Some (entry !! "response_headers").
Proof.
  intros (self & b & m & Hb)%elem_of_run_callbacks.
  apply build_entry_fields in Hb as (_ & _ & _ & [n ->] & [l ->]).
  split; eauto.
Qed.

Lemma retained_entries_have_response_fields_witness :
  ∃ entry,
    entry ∈ get_history (run_callbacks (registerExtenderCallbacks sample_helpers)
                           (sample_events 2))
    ∧ is_Some (entry !! "status_code") ∧ is_Some (entry !! "response_headers").
Proof.
  eexists. split; [vm_compute; apply list_elem_of_here|].
  apply (retained_entries_have_response_fields sample_helpers (sample_events 2)).
  vm_compute. apply list_elem_of_here.
Defined.



(** Nor does it append when [str] fails on a header: the call raises
    [UnicodeEncodeError] before the append. *)
Example capture_drops_on_non_ascii_header :
  let self := registerExtenderCallbacks non_ascii_header_helpers in
  processProxyMessage self false sample_message = Raise "UnicodeEncodeError"
  ∧ get_history (deliver self (false, sample_message)) = [].
Proof. split; reflexivity. Qed.



(** A request-phase call leaves the store as it is. *)
Lemma capture_skips_request_phase self message :
  processProxyMessage self true message = Ok self.
Proof. reflexivity. Qed.

Example capture_without_response :
  processProxyMessage (registerExtenderCallbacks sample_helpers) false
    request_only_message
  = Ok (registerExtenderCallbacks sample_helpers).
Proof. reflexivity. Qed.

(** C1, as stated, fails once an eviction has happened. After 1001
    captures position 0 holds the entry stamped 1, so a lookup of 0
    returns it although no retained entry is stamped 0; and the entry
    stamped 1000 is retained but a lookup of 1000 finds nothing. *)
Lemma get_history_item_is_not_by_field :
  let self := run_callbacks (registerExtenderCallbacks sample_helpers)
                (sample_events 1001) in
  (index_field <$> get_history_item self 0) = Some (Some (VInt 1))
  ∧ getByIndex_by_field self 0 = None
  ∧ get_history_item self 1000 = None
  ∧ (index_field <$> getByIndex_by_field self 1000) = Some (Some (VInt 1000)).
Proof. vm_compute. repeat split. Qed.

(** C1, amended. The lookup is positional: [None] for a negative index
    or one at or past the current length, the entry at that position
    otherwise. As long as no more entries were appended than the store
    holds (no eviction yet), that is the lookup by [index] field. *)
Theorem get_history_item_positional helpers evs i :
  let self := run_callbacks (registerExtenderCallbacks helpers) evs in
  (i < 0 ∨ Z.of_nat (length (get_history self)) ≤ i → get_history_item self i = None)
  ∧ (0 ≤ i < Z.of_nat (length (get_history self)) →
       get_history_item self i = get_history self !! Z.to_nat i)
  ∧ ((length (appended (registerExtenderCallbacks helpers) evs) ≤ _max_history self)%nat →
       get_history_item self i = getByIndex_by_field self i).
Proof.
  intros self. unfold get_history, get_history_item.
  split; [|split].
  - intros Hi.
    destruct (Z.leb_spec 0 i), (Z.ltb_spec i (Z.of_nat (length (_history self))));
      simpl; try done; lia.
  - intros Hi.
    destruct (Z.leb_spec 0 i), (Z.ltb_spec i (Z.of_nat (length (_history self))));
      simpl; try done; lia.
  - intros Hle. unfold getByIndex_by_field.
    assert (H0 : (length (_history (registerExtenderCallbacks helpers))
                  ≤ _max_history (registerExtenderCallbacks helpers))%nat)
      by (simpl; lia).
    assert (Hh : _history self = appended (registerExtenderCallbacks helpers) evs).
    { unfold self in *. rewrite run_callbacks_max in Hle.
      rewrite run_callbacks_history by done. simpl in *.
      by replace (length (appended (registerExtenderCallbacks helpers) evs) - 1000)%nat
        with 0%nat by lia. }
    rewrite (head_filter_index _ 0).
    + by rewrite Z.sub_0_r.
    + intros k entry Hk. rewrite Hh in Hk.
      pose proof (lookup_lt_Some _ _ _ Hk) as Hlt.
      apply appended_lookup in Hk as [s Hs].
      apply append_trace_lookup in Hs as (_ & Hlen & ->); [|done].
      unfold self in Hle. rewrite run_callbacks_max in Hle. simpl in *.
      f_equal. f_equal. lia.
Qed.

Lemma get_history_item_positional_witness :
  let self := run_callbacks (registerExtenderCallbacks sample_helpers) (sample_events 3) in
  get_history_item self 1 = getByIndex_by_field self 1.
Proof.
  destruct (get_history_item_positional sample_helpers (sample_events 3) 1)
    as (_ & _ & H).
  apply H. vm_compute. lia.
Defined.

(** * Statistics *)

Section stats.

Implicit Types (history : list (gmap string value)) (ks : list value).

Lemma getitem_Some (h : gmap string value) key v :
  h !! key = Some v → getitem h key = Ok v.
Proof. unfold getitem. by intros ->. Qed.

Lemma comprehension_getitem key history :
  Forall (λ h, ∃ s, h !! key = Some (VStr s)) history →
  ∃ vs, comprehension (λ h, getitem h key) history = Ok vs
        ∧ Forall2 (λ h v, h !! key = Some v) history vs
        ∧ forallb hashable vs = true.
Proof.
  induction 1 as [|h history [s Hs] _ (vs & Hvs & HF & Hh)].
  - exists []. by repeat split.
  - exists (VStr s :: vs). simpl. rewrite (getitem_Some _ _ _ Hs). simpl.
    rewrite Hvs. simpl. repeat split; [|done]. by constructor.
Qed.

Lemma elem_of_values key history vs v :
  Forall2 (λ h v, h !! key = Some v) history vs →
  v ∈ vs ↔ ∃ h, h ∈ history ∧ h !! key = Some v.
Proof.
  induction 1 as [|h v' history vs Hh _ IH].
  - split; [by intros ?%elem_of_nil|by intros (? & ?%elem_of_nil & _)].
  - rewrite elem_of_cons, IH. split.
    + intros [->|(h' & ? & ?)]; [exists h|exists h']; by rewrite elem_of_cons; auto.
    + intros (h' & [->|?]%elem_of_cons & Hv); [left; congruence|right; eauto].
Qed.

Lemma method_count_cons h history m :
  method_count (h :: history) m =
    ((if decide (h !! "method" = Some m) then 1 else 0) + method_count history m)%nat.
Proof.
  unfold method_count. rewrite filter_cons. by case_decide.
Qed.

Lemma method_count_pos history m :
  (0 < method_count history m)%nat ↔ ∃ h, h ∈ history ∧ h !! "method" = Some m.
Proof.
  unfold method_count. split.
  - destruct (filter _ history) as [|h l] eqn:Hf; simpl; [lia|]. intros _.
    assert (Hin : h ∈ filter (λ h, h !! "method" = Some m) history)
      by (rewrite Hf; apply list_elem_of_here).
    apply list_elem_of_filter in Hin as [? ?]. eauto.
  - intros (h & Hin & Hm).
    assert (Hf : h ∈ filter (λ h, h !! "method" = Some m) history)
      by (by apply list_elem_of_filter).
    destruct (filter _ history); [by apply elem_of_nil in Hf|simpl; lia].
Qed.

Lemma sum_list_cons (n : nat) (l : list nat) :
  sum_list (n :: l) = (n + sum_list l)%nat.
Proof. reflexivity. Qed.

Lemma sum_indicator_absent (o : option value) ks :
  (∀ m, m ∈ ks → o ≠ Some m) →
  sum_list ((λ m, if decide (o = Some m) then 1%nat else 0%nat) <$> ks) = 0%nat.
Proof.
  induction ks as [|k ks IH]; intros Hall; [done|].
  rewrite fmap_cons, sum_list_cons.
  rewrite IH by (intros m ?; apply Hall; by right).
  case_decide as Ho; [|done].
  by destruct (Hall k (list_elem_of_here _ _)).
Qed.

(** One key of a duplicate-free list matches a given method exactly once. *)
Lemma sum_indicator (o : option value) ks :
  NoDup ks →
  (∃ m, m ∈ ks ∧ o = Some m) →
  sum_list ((λ m, if decide (o = Some m) then 1%nat else 0%nat) <$> ks) = 1%nat.
Proof.
  induction 1 as [|k ks Hk Hnd IH]; intros (m & Hm & Ho).
  - by apply elem_of_nil in Hm.
  - rewrite fmap_cons, sum_list_cons. case_decide as Hok.
    + rewrite sum_indicator_absent; [done|].
      intros m' Hm' Hom'. rewrite Hok in Hom'. by injection Hom' as ->.
    + rewrite IH; [done|]. exists m. split; [|done].
      apply elem_of_cons in Hm as [->|?]; [done|done].
Qed.

Lemma sum_list_plus {A} (f g : A → nat) (l : list A) :
  sum_list ((λ x, f x + g x)%nat <$> l) = (sum_list (f <$> l) + sum_list (g <$> l))%nat.
Proof.
  induction l as [|x l IH]; [done|].
  rewrite !fmap_cons, !sum_list_cons, IH. lia.
Qed.

(** Counting every method once accounts for every entry. *)
Lemma sum_method_counts history ks :
  NoDup ks →
  (∀ h, h ∈ history → ∃ m, m ∈ ks ∧ h !! "method" = Some m) →
  sum_list (method_count history <$> ks) = length history.
Proof.
  intros Hnd. induction history as [|h history IH]; intros Hall.
  - clear Hnd Hall. induction ks as [|k ks IHks]; [done|].
    by rewrite fmap_cons, sum_list_cons, IHks.
  - erewrite (list_fmap_ext (method_count (h :: history))); last first.
    { intros _ m _. apply method_count_cons. }
    rewrite sum_list_plus, IH by (intros h' ?; apply Hall; by right).
    rewrite sum_indicator; [done|done|].
    destruct (Hall h (list_elem_of_here _ _)) as (m & ? & ?). eauto.
Qed.

Lemma well_formed_history helpers evs :
  Forall (λ h, (∃ s, h !! "host" = Some (VStr s)) ∧ (∃ m, h !! "method" = Some (VStr m))
               ∧ h ≠ ∅)
    (_history (run_callbacks (registerExtenderCallbacks helpers) evs)).
Proof.
  apply Forall_forall. intros h (self & b & m & Hb)%elem_of_run_callbacks.
  apply build_entry_fields in Hb as (Hi & Hh & Hm & _).
  repeat split; eauto. intros ->. by rewrite lookup_empty in Hi.
Qed.

End stats.

Lemma get_stats_ok helpers evs :
  ∃ s, get_stats (run_callbacks (registerExtenderCallbacks helpers) evs) = Ok s.
Proof.
  set (self := run_callbacks _ evs). unfold get_stats.
  pose proof (well_formed_history helpers evs) as Hwf. fold self in Hwf.
  destruct (comprehension_getitem "host" (_history self))
    as (host_list & -> & _ & Hhh).
  { eapply Forall_impl; [exact Hwf|]. by intros h (? & _). }
  destruct (comprehension_getitem "method" (_history self))
    as (method_list & -> & _ & Hmh).
  { eapply Forall_impl; [exact Hwf|]. by intros h (_ & ? & _). }
  simpl. unfold py_set. rewrite Hhh, Hmh. simpl. by eexists.
Qed.

(** C4. On every store state the callback can produce, [get_stats]
    returns: [total_requests], the number of retained entries; [hosts],
    the distinct host values of the retained entries, each once;
    [methods], mapping exactly the methods that occur to their number of
    occurrences among the retained entries. The values of [methods] add
    up to [total_requests]. *)
Theorem get_stats_counts helpers evs :
  let self := run_callbacks (registerExtenderCallbacks helpers) evs in
  ∃ s, get_stats self = Ok s
    ∧ total_requests s = length (get_history self)
    ∧ NoDup (hosts s)
    ∧ (∀ v, v ∈ hosts s ↔ ∃ h, h ∈ get_history self ∧ h !! "host" = Some v)
    ∧ (∀ m n, methods s !! m = Some n ↔
         n = method_count (get_history self) m ∧ (0 < n)%nat)
    ∧ sum_values (methods s) = total_requests s.
Proof.
  intros self. unfold get_history, get_stats.
  pose proof (well_formed_history helpers evs) as Hwf. fold self in Hwf.
  destruct (comprehension_getitem "host" (_history self))
    as (host_list & -> & Hhosts & Hhh).
  { eapply Forall_impl; [exact Hwf|]. by intros h (? & _). }
  destruct (comprehension_getitem "method" (_history self))
    as (method_list & -> & Hmethods & Hmh).
  { eapply Forall_impl; [exact Hwf|]. by intros h (_ & ? & _). }
  simpl. unfold py_set. rewrite Hhh, Hmh. simpl.
  eexists. split; [reflexivity|]. simpl.
  assert (Hkeys : ∀ m, m ∈ elements (list_to_set method_list : gset value)
                       ↔ ∃ h, h ∈ _history self ∧ h !! "method" = Some m).
  { intros m. rewrite elem_of_elements, elem_of_list_to_set.
    by apply elem_of_values. }
  split; [done|]. split; [apply NoDup_elements|]. split; [|split].
  - intros v. rewrite elem_of_elements, elem_of_list_to_set.
    by apply elem_of_values.
  - intros m n. rewrite lookup_set_to_map by done. split.
    + intros (y & Hy & [= <- <-]). split; [done|].
      apply method_count_pos, Hkeys, elem_of_elements, Hy.
    + intros [-> Hpos]. exists m. split; [|done].
      apply elem_of_elements, Hkeys, method_count_pos, Hpos.
  - unfold sum_values, set_to_map.
    rewrite map_to_list_to_map.
    + rewrite <- list_fmap_compose.
      apply sum_method_counts; [apply NoDup_elements|].
      intros h Hh.
      destruct (proj1 (Forall_forall _ _) Hwf h Hh) as (_ & [m Hm] & _).
      exists (VStr m). split; [|done]. apply Hkeys. eauto.
    + rewrite <- list_fmap_compose. simpl.
      rewrite list_fmap_id. apply NoDup_elements.
Qed.

(** One capture of a GET to example.com. *)
Example stats_after_one_capture :
  let self := run_callbacks (registerExtenderCallbacks sample_helpers)
                (sample_events 1) in
  ∃ s, get_stats self = Ok s
    ∧ total_requests s = 1%nat
    ∧ hosts s = [VStr "example.com"]
    ∧ map_to_list (methods s) = [(VStr "GET", 1%nat)].
Proof. eexists. split; [reflexivity|]. vm_compute. repeat split. Qed.

(** * Text produced by the encoder *)

Section text.

Lemma string_app_assoc (a b c : string) : (a +:+ b) +:+ c = a +:+ b +:+ c.
Proof.
  induction a as [|x a IH]; [done|].
  change (String x ((a +:+ b) +:+ c) = String x (a +:+ b +:+ c)).
  by rewrite IH.
Qed.

Lemma all_ascii_app (a b : string) :
  all_ascii (a +:+ b) = all_ascii a && all_ascii b.
Proof.
  induction a as [|c a IH]; simpl; [done|].
  rewrite IH. by rewrite andb_assoc.
Qed.

Lemma all_ascii_concat (sep : string) (l : list string) :
  all_ascii sep = true →
  Forall (λ s, all_ascii s = true) l →
  all_ascii (String.concat sep l) = true.
Proof.
  intros Hsep. induction 1 as [|s l Hs Hl IH]; [done|].
  simpl. destruct l as [|s' l']; [done|].
  rewrite !all_ascii_app, Hs, Hsep. simpl. exact IH.
Qed.

Lemma utf8_encode_app (a b : string) :
  utf8_encode (a +:+ b) = utf8_encode a ++ utf8_encode b.
Proof.
  induction a as [|c a IH]; simpl; [done|].
  rewrite IH. by case_match.
Qed.

(** On ASCII text the number of bytes is the number of characters. *)
Lemma utf8_encode_ascii_length (s : string) :
  all_ascii s = true → length (utf8_encode s) = String.length s.
Proof.
  induction s as [|c s IH]; simpl; [done|].
  intros [Hc Hs]%andb_prop. rewrite Hc. simpl. by rewrite IH.
Qed.

Lemma escape_char_ascii (c : ascii) : all_ascii (escape_char c) = true.
Proof. destruct c as [[] [] [] [] [] [] [] []]; reflexivity. Qed.

Lemma escape_string_ascii (s : string) : all_ascii (escape_string s) = true.
Proof.
  induction s as [|c s IH]; simpl; [done|].
  by rewrite all_ascii_app, escape_char_ascii, IH.
Qed.

Lemma encode_basestring_ascii_ascii (s : string) :
  all_ascii (encode_basestring_ascii s) = true.
Proof.
  unfold encode_basestring_ascii. simpl.
  by rewrite all_ascii_app, escape_string_ascii.
Qed.

Lemma string_of_uint_ascii (d : Decimal.uint) :
  all_ascii (NilEmpty.string_of_uint d) = true.
Proof. induction d; simpl; done. Qed.

Lemma str_of_int_ascii (n : Z) : all_ascii (str_of_int n) = true.
Proof.
  unfold str_of_int, NilZero.string_of_int, NilZero.string_of_uint.
  destruct (Z.to_int n) as [d|d]; destruct d; simpl;
    try done; apply string_of_uint_ascii.
Qed.

Lemma spaces_ascii (n : nat) : all_ascii (spaces n) = true.
Proof. induction n; simpl; done. Qed.

Lemma newline_indent_ascii indent level :
  all_ascii (newline_indent indent level) = true.
Proof. destruct indent; simpl; [apply spaces_ascii|done]. Qed.

Lemma json_ind (P : json → Prop) :
  (∀ n, P (JInt n)) →
  (∀ s, P (JStr s)) →
  (∀ items, Forall P items → P (JArr items)) →
  (∀ members, Forall (λ kv, P kv.2) members → P (JObj members)) →
  ∀ o, P o.
Proof.
  intros Hint Hstr Harr Hobj. fix IH 1. intros [n|s|items|members].
  - apply Hint.
  - apply Hstr.
  - apply Harr. induction items as [|x xs IHxs]; constructor; [apply IH|apply IHxs].
  - apply Hobj. induction members as [|[k v] xs IHxs]; constructor;
      [apply IH|apply IHxs].
Qed.

(** [ensure_ascii]: whatever is encoded, the text is pure ASCII. *)
Lemma iterencode_ascii indent (o : json) :
  ∀ level, all_ascii (iterencode indent level o) = true.
Proof.
  induction o as [n|s|items IH|members IH] using json_ind; intros level.
  - apply str_of_int_ascii.
  - apply encode_basestring_ascii_ascii.
  - destruct items as [|x xs]; [done|].
    change (iterencode indent level (JArr (x :: xs))) with
      ("[" +:+ newline_indent indent (S level)
        +:+ String.concat (", " +:+ newline_indent indent (S level))
              (iterencode indent (S level) <$> (x :: xs))
        +:+ newline_indent indent level +:+ "]").
    rewrite !all_ascii_app, !newline_indent_ascii.
    repeat (apply andb_true_intro; split); try reflexivity.
    apply all_ascii_concat.
    + by rewrite all_ascii_app, newline_indent_ascii.
    + apply Forall_fmap. eapply Forall_impl; [exact IH|]. intros y Hy. apply Hy.
  - destruct members as [|x xs]; [done|].
    change (iterencode indent level (JObj (x :: xs))) with
      ("{" +:+ newline_indent indent (S level)
        +:+ String.concat (", " +:+ newline_indent indent (S level))
              ((λ kv, encode_basestring_ascii kv.1 +:+ ": "
                        +:+ iterencode indent (S level) kv.2) <$> (x :: xs))
        +:+ newline_indent indent level +:+ "}").
    rewrite !all_ascii_app, !newline_indent_ascii.
    repeat (apply andb_true_intro; split); try reflexivity.
    apply all_ascii_concat.
    + by rewrite all_ascii_app, newline_indent_ascii.
    + apply Forall_fmap. eapply Forall_impl; [exact IH|]. intros y Hy.
      unfold compose. cbv beta.
      by rewrite !all_ascii_app, encode_basestring_ascii_ascii, Hy.
Qed.

Lemma dumps_ascii (o : json) indent : all_ascii (dumps o indent) = true.
Proof. apply iterencode_ascii. Qed.

End text.

(** * The request handler *)

Section handler.

Implicit Types (extender : BurpExtender) (input_stream : list byte).

Lemma run_parsed extender input_stream method path rest :
  request_line_parts input_stream = method :: path :: rest →
  RequestHandler_run extender input_stream =
    match route extender method path with
    | Ok (status, response_body) =>
        {| written := utf8_encode (format_response status response_body);
           closed := true; logged := None |}
    | Raise e =>
        {| written := []; closed := true;
           logged := Some ("[-] Request handler error: " +:+ e) |}
    end.
Proof.
  unfold request_line_parts, RequestHandler_run.
  destruct (split _ CRLF) as [|line lines]; [done|].
  by intros ->.
Qed.

Lemma route_history_item extender method path :
  method ≠ "OPTIONS" →
  startswith path "/history/" = true →
  route extender method path =
    match history_item_route extender path with
    | Ok r => Ok r
    | Raise _ => Ok ("400 Bad Request",
                     dumps (JObj [("error", JStr "Invalid index")]) None)
    end.
Proof.
  intros Hm Hp. unfold route.
  rewrite bool_decide_eq_false_2 by done.
  rewrite bool_decide_eq_false_2 by (by intros ->).
  rewrite bool_decide_eq_false_2 by (by intros ->).
  by rewrite Hp.
Qed.

Lemma split_go_nonempty sep s skip cur : split_go sep s skip cur ≠ [].
Proof.
  revert skip cur. induction s as [|c s IH]; intros skip cur; simpl; [done|].
  destruct skip; [|apply IH]. case_match; [done|apply IH].
Qed.

Lemma last_split s sep : ∃ segment, last (split s sep) = Some segment.
Proof. apply last_is_Some, split_go_nonempty. Qed.

Lemma history_item_route_cases extender path :
  Forall (λ h, h ≠ ∅) (_history extender) →
  history_item_route extender path =
    match py_int (default "" (last (split path "/"))) with
    | Raise e => Raise e
    | Ok index =>
        match get_history_item extender index with
        | Some item => Ok ("200 OK", dumps (entry_to_json item) (Some 2%nat))
        | None => Ok ("404 Not Found",
                      dumps (JObj [("error", JStr "Item not found")]) None)
        end
    end.
Proof.
  intros Hne. unfold history_item_route.
  destruct (last_split path "/") as [segment ->]. simpl.
  destruct (py_int segment) as [index|e]; simpl; [|done].
  destruct (get_history_item extender index) as [item|] eqn:Hitem; [|done].
  rewrite bool_decide_eq_false_2; [done|].
  unfold get_history_item in Hitem. case_match; [|done].
  apply list_elem_of_lookup_2 in Hitem.
  by apply (proj1 (Forall_forall _ _) Hne).
Qed.

Lemma history_item_route_ascii extender path status body :
  history_item_route extender path = Ok (status, body) → all_ascii body = true.
Proof.
  unfold history_item_route.
  destruct (last (split path "/")) as [segment|]; simpl; [|done].
  destruct (py_int segment) as [index|e]; simpl; [|done].
  destruct (get_history_item extender index) as [item|]; [case_bool_decide|];
    intros [= <- <-]; apply dumps_ascii.
Qed.

(** On a store the callback produced, routing never raises and the body
    is ASCII text. *)
Lemma route_ok helpers evs method path :
  ∃ status body,
    route (run_callbacks (registerExtenderCallbacks helpers) evs) method path
      = Ok (status, body)
    ∧ all_ascii body = true.
Proof.
  set (extender := run_callbacks _ evs). unfold route.
  case_bool_decide; [by eexists _, _|].
  case_bool_decide; [eexists _, _; split; [done|apply dumps_ascii]|].
  case_bool_decide; [eexists _, _; split; [done|apply dumps_ascii]|].
  case_match.
  { destruct (history_item_route extender path) as [[status body]|e] eqn:Hr.
    - eexists _, _. split; [done|]. by eapply history_item_route_ascii.
    - eexists _, _. split; [done|]. apply dumps_ascii. }
  case_bool_decide; [|eexists _, _; split; [done|apply dumps_ascii]].
  destruct (get_stats_ok helpers evs) as (s & Hs).
  fold extender in Hs. rewrite Hs. simpl.
  eexists _, _. split; [done|]. apply dumps_ascii.
Qed.

End handler.

(** * The claims about the handler *)

(** C8. When the request line has fewer than two space-delimited
    tokens the handler writes nothing at all, and closes the
    connection. *)
Theorem malformed_request_line_gets_no_response extender input_stream :
  (length (request_line_parts input_stream) < 2)%nat →
  written (RequestHandler_run extender input_stream) = []
  ∧ closed (RequestHandler_run extender input_stream) = true.
Proof.
  unfold request_line_parts, RequestHandler_run.
  destruct (split _ CRLF) as [|line lines]; [done|].
  destruct (split line " ") as [|method [|path rest]]; simpl; [done|done|lia].
Qed.

Lemma malformed_request_line_gets_no_response_witness :
  written (RequestHandler_run (registerExtenderCallbacks sample_helpers)
             (request_bytes "GET")) = []
  ∧ closed (RequestHandler_run (registerExtenderCallbacks sample_helpers)
              (request_bytes "GET")) = true.
Proof.
  apply (malformed_request_line_gets_no_response
           (registerExtenderCallbacks sample_helpers) (request_bytes "GET")).
  vm_compute. lia.
Defined.

(** C5, as stated, fails: the segment [-1] does not denote a
    non-negative integer, yet [int] accepts it and the answer is 404
    "Item not found", not 400 "Invalid index". *)
Lemma negative_index_is_not_found :
  let extender := registerExtenderCallbacks sample_helpers in
  let input_stream := request_bytes "GET /history/-1 HTTP/1.1" in
  request_line_parts input_stream = ["GET"; "/history/-1"; "HTTP/1.1"]
  ∧ py_int "-1" = Ok (-1)
  ∧ written (RequestHandler_run extender input_stream) =
      utf8_encode (format_response "404 Not Found"
                     (dumps (JObj [("error", JStr "Item not found")]) None))
  ∧ written (RequestHandler_run extender input_stream) ≠
      utf8_encode (format_response "400 Bad Request"
                     (dumps (JObj [("error", JStr "Invalid index")]) None)).
Proof. vm_compute. repeat split. discriminate. Qed.

(** C5, amended. For a GET request whose path starts with [/history/]
    the trailing segment is read by [int] as Jython evaluates it, which
    accepts any signed decimal integer (and white space around it, white
    space after the sign, and a second sign after a plus sign). If that
    fails the answer is 400 "Invalid index"; if it gives [n] and the
    store has an entry at [n] the answer is 200 with that entry as JSON;
    otherwise, negative [n] included, the answer is 404 "Item not
    found". *)
Theorem history_item_responses helpers evs input_stream path rest :
  let extender := run_callbacks (registerExtenderCallbacks helpers) evs in
  request_line_parts input_stream = "GET" :: path :: rest →
  startswith path "/history/" = true →
  written (RequestHandler_run extender input_stream) =
    utf8_encode
      match py_int (default "" (last (split path "/"))) with
      | Raise _ =>
          format_response "400 Bad Request"
            (dumps (JObj [("error", JStr "Invalid index")]) None)
      | Ok n =>
          match get_history_item extender n with
          | Some item =>
              format_response "200 OK" (dumps (entry_to_json item) (Some 2%nat))
          | None =>
              format_response "404 Not Found"
                (dumps (JObj [("error", JStr "Item not found")]) None)
          end
      end.
Proof.
  intros extender Hparts Hpath.
  rewrite (run_parsed _ _ _ _ _ Hparts).
  rewrite route_history_item by done.
  rewrite history_item_route_cases.
  - destruct (py_int _) as [n|e]; [|done].
    by destruct (get_history_item extender n).
  - eapply Forall_impl; [apply well_formed_history|]. by intros h (_ & _ & ?).
Qed.

Lemma history_item_responses_witness :
  written (RequestHandler_run (registerExtenderCallbacks sample_helpers)
             (request_bytes "GET /history/abc HTTP/1.1")) =
    utf8_encode (format_response "400 Bad Request"
                   (dumps (JObj [("error", JStr "Invalid index")]) None)).
Proof.
  apply (history_item_responses sample_helpers []
           (request_bytes "GET /history/abc HTTP/1.1")
           "/history/abc" ["HTTP/1.1"]); reflexivity.
Defined.

(** What [int] takes beyond plain decimal text, and what it rejects. *)
Example py_int_signs_and_white_space :
  py_int "++1" = Ok 1
  ∧ py_int "+-1" = Ok (-1)
  ∧ py_int "- 7" = Ok (-7)
  ∧ py_int (String (ascii_of_N 28) "5") = Ok 5
  ∧ py_int "-+1" = Raise "ValueError"
  ∧ py_int "--1" = Raise "ValueError"
  ∧ py_int "+" = Raise "ValueError"
  ∧ py_int "" = Raise "ValueError"
  ∧ py_int "1 2" = Raise "ValueError"
  ∧ py_int "abc" = Raise "ValueError".
Proof. repeat split. Qed.

(** So a doubled plus sign reaches the store: position 0 of a store
    with one entry is served, and an empty store answers 404. *)
Example history_plus_plus_0 :
  let extender := run_callbacks (registerExtenderCallbacks sample_helpers)
                    (sample_events 1) in
  (∃ item, get_history_item extender 0 = Some item
     ∧ written (RequestHandler_run extender (request_bytes "GET /history/++0 HTTP/1.1")) =
         utf8_encode (format_response "200 OK" (dumps (entry_to_json item) (Some 2%nat))))
  ∧ written (RequestHandler_run (registerExtenderCallbacks sample_helpers)
               (request_bytes "GET /history/++0 HTTP/1.1")) =
      utf8_encode (format_response "404 Not Found"
                     (dumps (JObj [("error", JStr "Item not found")]) None)).
Proof. split; [eexists; split; reflexivity|reflexivity]. Qed.

(** The two requests the specification lists as tests. *)
Example history_5_on_empty_store :
  written (RequestHandler_run (registerExtenderCallbacks sample_helpers)
             (request_bytes "GET /history/5 HTTP/1.1")) =
    utf8_encode (format_response "404 Not Found"
                   (dumps (JObj [("error", JStr "Item not found")]) None)).
Proof. reflexivity. Qed.

Example history_1_of_three :
  let extender := run_callbacks (registerExtenderCallbacks sample_helpers)
                    (sample_events 3) in
  ∃ item, get_history_item extender 1 = Some item
    ∧ written (RequestHandler_run extender (request_bytes "GET /history/1 HTTP/1.1")) =
        utf8_encode (format_response "200 OK" (dumps (entry_to_json item) (Some 2%nat))).
Proof. eexists. split; reflexivity. Qed.

(** C6. Every request that parses gets a response whose header block
    is the status line, the three CORS headers, [Content-Type:
    application/json], a [Content-Length] equal to the number of bytes of
    the body as sent, and [Connection: close]; the body follows the empty
    line. *)
Theorem every_response_carries_the_headers helpers evs input_stream :
  let extender := run_callbacks (registerExtenderCallbacks helpers) evs in
  (2 ≤ length (request_line_parts input_stream))%nat →
  ∃ status body,
    written (RequestHandler_run extender input_stream) =
      utf8_encode
        ("HTTP/1.1 " +:+ status +:+ CRLF
         +:+ "Access-Control-Allow-Origin: *" +:+ CRLF
         +:+ "Access-Control-Allow-Methods: GET, POST, OPTIONS" +:+ CRLF
         +:+ "Access-Control-Allow-Headers: Content-Type" +:+ CRLF
         +:+ "Content-Type: application/json" +:+ CRLF
         +:+ "Content-Length: "
         +:+ str_of_int (Z.of_nat (length (utf8_encode body))) +:+ CRLF
         +:+ "Connection: close" +:+ CRLF +:+ CRLF)
      ++ utf8_encode body.
Proof.
  intros extender Hlen.
  destruct (request_line_parts input_stream) as [|method [|path rest]] eqn:Hparts;
    [simpl in Hlen; lia..|].
  rewrite (run_parsed _ _ _ _ _ Hparts).
  destruct (route_ok helpers evs method path) as (status & body & Hr & Hascii).
  fold extender in Hr. rewrite Hr. simpl.
  exists status, body.
  rewrite (utf8_encode_ascii_length _ Hascii).
  unfold format_response, cors_headers.
  rewrite <- utf8_encode_app. f_equal.
  by rewrite !string_app_assoc.
Qed.

Lemma every_response_carries_the_headers_witness :
  ∃ status body,
    written (RequestHandler_run (registerExtenderCallbacks sample_helpers)
               (request_bytes "OPTIONS /anything HTTP/1.1")) =
      utf8_encode
        ("HTTP/1.1 " +:+ status +:+ CRLF
         +:+ "Access-Control-Allow-Origin: *" +:+ CRLF
         +:+ "Access-Control-Allow-Methods: GET, POST, OPTIONS" +:+ CRLF
         +:+ "Access-Control-Allow-Headers: Content-Type" +:+ CRLF
         +:+ "Content-Type: application/json" +:+ CRLF
         +:+ "Content-Length: "
         +:+ str_of_int (Z.of_nat (length (utf8_encode body))) +:+ CRLF
         +:+ "Connection: close" +:+ CRLF +:+ CRLF)
      ++ utf8_encode body.
Proof.
  apply (every_response_carries_the_headers sample_helpers []
           (request_bytes "OPTIONS /anything HTTP/1.1")).
  vm_compute. lia.
Defined.

(** The preflight answer: 200 with an empty body. *)
Example options_anything :
  route (registerExtenderCallbacks sample_helpers) "OPTIONS" "/anything"
    = Ok ("200 OK", "").
Proof. reflexivity. Qed.

(** * More about the store *)

Section store_lookup.

Implicit Types (self : BurpExtender) (entry : gmap string value).

Lemma get_history_item_lookup self (i : nat) :
  get_history_item self (Z.of_nat i) = _history self !! i.
Proof.
  unfold get_history_item. rewrite Nat2Z.id.
  destruct (Z.ltb_spec (Z.of_nat i) (Z.of_nat (length (_history self)))) as [Hlt|Hge].
  - by rewrite (proj2 (Z.leb_le 0 (Z.of_nat i))) by lia.
  - rewrite andb_false_r. symmetry. apply lookup_ge_None. lia.
Qed.

Lemma deliver_ignored self ev : passes_guards ev = false → deliver self ev = self.
Proof.
  rewrite deliver_unfold. unfold passes_guards, build_entry.
  destruct ev as [b message]; simpl.
  destruct b; simpl; [done|]. by intros ->.
Qed.

Lemma build_entry_dom self messageIsRequest message entry :
  build_entry self messageIsRequest message = Ok (Some entry) →
  dom entry = entry_keys.
Proof.
  unfold build_entry.
  destruct messageIsRequest; simpl; [done|].
  destruct (truthy_bytes (getRequest _)); simpl; [|done].
  destruct (truthy_bytes (getResponse _)) eqn:Hresp; simpl; [|done].
  destruct (analyzeRequest _ _) as [requestInfo|]; simpl; [|done].
  destruct (py_str _) as [url|]; simpl; [|done].
  destruct (comprehension py_str _) as [headers|]; simpl; [|done].
  destruct (analyzeResponse _ _) as [responseInfo|]; simpl; [|done].
  destruct (comprehension py_str _) as [response_headers|]; simpl; [|done].
  intros [= <-]. rewrite !dom_insert_L, dom_empty_L. unfold entry_keys. simpl.
  set_solver.
Qed.

End store_lookup.

Lemma get_history_item_run helpers evs i :
  0 ≤ i < Z.of_nat (length (_history (run_callbacks (registerExtenderCallbacks helpers) evs))) →
  get_history_item (run_callbacks (registerExtenderCallbacks helpers) evs) i =
    appended (registerExtenderCallbacks helpers) evs
      !! (length (appended (registerExtenderCallbacks helpers) evs) - 1000 + Z.to_nat i)%nat.
Proof.
  intros Hi.
  rewrite <- (Z2Nat.id i) at 1 by lia. rewrite get_history_item_lookup.
  rewrite run_callbacks_history by (simpl; lia).
  simpl. apply lookup_drop.
Qed.

(** X1. A lookup by position reads the sequence of captures at an offset:
    once [N] entries were appended, position [i] of the store holds
    capture number [N - 1000 + i] (counting from 0, the subtraction
    stopping at 0). *)
Theorem get_history_item_of_captures helpers evs i :
  let self0 := registerExtenderCallbacks helpers in
  let final := run_callbacks self0 evs in
  let captures := appended self0 evs in
  0 ≤ i < Z.of_nat (length (get_history final)) →
  get_history_item final i = captures !! (length captures - 1000 + Z.to_nat i)%nat.
Proof.
  intros self0 final captures Hi. by apply get_history_item_run.
Qed.

Lemma get_history_item_of_captures_witness :
  get_history_item (run_callbacks (registerExtenderCallbacks sample_helpers)
                      (sample_events 1003)) 0
  = appended (registerExtenderCallbacks sample_helpers) (sample_events 1003) !! 3%nat.
Proof.
  apply (get_history_item_of_captures sample_helpers (sample_events 1003) 0).
  vm_compute. split; [discriminate|reflexivity].
Defined.

(** X2. Once an eviction has happened, no position holds the entry
    stamped with that position: the entry at position [i] is stamped
    [min (N - 1000 + i) 1000], which is larger than [i]. *)
Theorem index_field_exceeds_position_after_eviction helpers evs i :
  let self0 := registerExtenderCallbacks helpers in
  let final := run_callbacks self0 evs in
  let N := length (appended self0 evs) in
  (1000 < N)%nat →
  0 ≤ i < Z.of_nat (length (get_history final)) →
  ∃ entry,
    get_history_item final i = Some entry
    ∧ index_field entry =
        Some (VInt (Z.of_nat (Nat.min (N - 1000 + Z.to_nat i) 1000)))
    ∧ i < Z.of_nat (Nat.min (N - 1000 + Z.to_nat i) 1000).
Proof.
  intros self0 final N HN Hi.
  pose proof (get_history_item_run helpers evs i Hi) as Hget.
  fold self0 final N in Hget.
  assert (Hlen : length (get_history final) = 1000%nat).
  { unfold get_history, final. rewrite run_callbacks_history by (simpl; lia).
    simpl. rewrite length_drop. fold N. lia. }
  destruct (appended self0 evs !! (N - 1000 + Z.to_nat i)%nat) as [entry|] eqn:Hk.
  - exists entry. split; [done|].
    apply appended_lookup in Hk as [s Hs].
    apply append_trace_lookup in Hs as (_ & Hl & ->); [|simpl; lia].
    simpl in Hl. rewrite Hl. split; [done|]. lia.
  - apply lookup_ge_None in Hk. fold N in Hk. lia.
Qed.

Lemma index_field_exceeds_position_after_eviction_witness :
  ∃ entry,
    get_history_item (run_callbacks (registerExtenderCallbacks sample_helpers)
                        (sample_events 1001)) 5 = Some entry
    ∧ index_field entry = Some (VInt 6).
Proof.
  destruct (index_field_exceeds_position_after_eviction sample_helpers
              (sample_events 1001) 5) as (entry & Hget & Hidx & _).
  - vm_compute. lia.
  - vm_compute. split; [discriminate|reflexivity].
  - exists entry. split; [exact Hget|]. rewrite Hidx. vm_compute. reflexivity.
Defined.

(** X3. Every retained entry has exactly the thirteen fields of the
    capture entry, no more and no fewer. *)
Theorem retained_entries_have_exactly_the_entry_keys helpers evs entry :
  entry ∈ get_history (run_callbacks (registerExtenderCallbacks helpers) evs) →
  dom entry = entry_keys.
Proof.
  intros (self & b & m & Hb)%elem_of_run_callbacks.
  by eapply build_entry_dom.
Qed.

Lemma retained_entries_have_exactly_the_entry_keys_witness :
  ∃ entry,
    get_history (run_callbacks (registerExtenderCallbacks sample_helpers)
                   (sample_events 2)) !! 0%nat = Some entry
    ∧ dom entry = entry_keys.
Proof.
  destruct (get_history (run_callbacks (registerExtenderCallbacks sample_helpers)
                           (sample_events 2)) !! 0%nat) as [entry|] eqn:Hentry;
    [|vm_compute in Hentry; discriminate].
  exists entry. split; [reflexivity|].
  apply (retained_entries_have_exactly_the_entry_keys sample_helpers (sample_events 2)).
  exact (list_elem_of_lookup_2 _ _ _ Hentry).
Defined.

(** X4. Only response-phase events with a non-empty request and a
    non-empty response matter: dropping every other event from the
    sequence leaves the resulting store the same. *)
Theorem run_callbacks_ignores_unqualified_events self evs :
  run_callbacks self evs = run_callbacks self (filter passes_guards evs).
Proof.
  revert self. induction evs as [|ev evs IH]; intros self; [done|].
  rewrite filter_cons. destruct (decide (passes_guards ev)) as [Hp|Hp].
  - rewrite !run_callbacks_cons. apply IH.
  - rewrite run_callbacks_cons. rewrite deliver_ignored; [apply IH|].
    by destruct (passes_guards ev).
Qed.

(** X5. What one append does to the positions. Below capacity the old
    positions keep their entries and the new entry takes the next
    position; at capacity every entry moves down by one position and the
    new entry takes the last one. *)
Theorem store_append_positions entry self :
  let n := length (_history self) in
  let self' := store_append entry self in
  (0 < _max_history self)%nat →
  ((n < _max_history self)%nat →
     (∀ i : nat, (i < n)%nat →
        get_history_item self' (Z.of_nat i) = get_history_item self (Z.of_nat i))
     ∧ get_history_item self' (Z.of_nat n) = Some entry)
  ∧ (n = _max_history self →
     (∀ i : nat, (i < n - 1)%nat →
        get_history_item self' (Z.of_nat i) = get_history_item self (Z.of_nat (S i)))
     ∧ get_history_item self' (Z.of_nat (n - 1)) = Some entry).
Proof.
  intros n self' Hmax. unfold self'. split.
  - intros Hn.
    assert (Hd : _history (store_append entry self) = _history self ++ [entry]).
    { rewrite store_append_history by (fold n; lia).
      rewrite length_app. simpl length. fold n.
      by replace (n + 1 - _max_history self)%nat with 0%nat by lia. }
    split.
    + intros i Hi. rewrite !get_history_item_lookup, Hd.
      apply lookup_app_l. by fold n.
    + rewrite get_history_item_lookup, Hd.
      rewrite lookup_app_r by (fold n; lia). fold n.
      by replace (n - n)%nat with 0%nat by lia.
  - intros Hn.
    assert (Hd : _history (store_append entry self) = drop 1 (_history self ++ [entry])).
    { rewrite store_append_history by (fold n; lia).
      rewrite length_app. simpl length. fold n.
      by replace (n + 1 - _max_history self)%nat with 1%nat by lia. }
    split.
    + intros i Hi. rewrite !get_history_item_lookup, Hd, lookup_drop.
      apply lookup_app_l. fold n. lia.
    + rewrite get_history_item_lookup, Hd, lookup_drop.
      rewrite lookup_app_r by (fold n; lia). fold n.
      by replace (1 + (n - 1) - n)%nat with 0%nat by lia.
Qed.

Lemma store_append_positions_witness :
  let self := run_callbacks (registerExtenderCallbacks sample_helpers) (sample_events 2) in
  get_history_item (store_append ∅ self) 2 = Some ∅.
Proof.
  intros self.
  destruct (store_append_positions ∅ self) as [H _].
  - vm_compute. lia.
  - destruct H as [_ H]; [vm_compute; lia|]. exact H.
Defined.

Section stats_bounds.

Lemma method_count_le history m : (method_count history m ≤ length history)%nat.
Proof. unfold method_count. apply length_filter. Qed.

Lemma get_stats_shape helpers evs :
  let self := run_callbacks (registerExtenderCallbacks helpers) evs in
  ∃ host_list method_list,
    length host_list = length (_history self)
    ∧ Forall2 (λ h v, h !! "method" = Some v) (_history self) method_list
    ∧ get_stats self =
        Ok {| version := VERSION; author := AUTHOR;
              total_requests := length (_history self);
              hosts := elements (list_to_set host_list : gset value);
              methods := set_to_map (λ m, (m, method_count (_history self) m))
                           (list_to_set method_list : gset value) |}.
Proof.
  intros self. unfold get_stats.
  pose proof (well_formed_history helpers evs) as Hwf. fold self in Hwf.
  destruct (comprehension_getitem "host" (_history self))
    as (host_list & -> & Hhosts & Hhh).
  { eapply Forall_impl; [exact Hwf|]. by intros h (? & _). }
  destruct (comprehension_getitem "method" (_history self))
    as (method_list & -> & Hmethods & Hmh).
  { eapply Forall_impl; [exact Hwf|]. by intros h (_ & ? & _). }
  simpl. unfold py_set. rewrite Hhh, Hmh. simpl.
  exists host_list, method_list. split; [|by split].
  symmetry. by eapply Forall2_length.
Qed.

End stats_bounds.

(** X6. The statistics are bounded by the capacity: [total_requests] is at
    most 1000, there are at most [total_requests] hosts, and every
    method count lies between 1 and [total_requests]. *)
Theorem get_stats_bounds helpers evs :
  let self := run_callbacks (registerExtenderCallbacks helpers) evs in
  ∃ s, get_stats self = Ok s
    ∧ (total_requests s ≤ 1000)%nat
    ∧ (length (hosts s) ≤ total_requests s)%nat
    ∧ (∀ m n, methods s !! m = Some n → (1 ≤ n ≤ total_requests s)%nat).
Proof.
  intros self.
  destruct (get_stats_shape helpers evs)
    as (host_list & method_list & Hlen & Hmethods & Hs).
  fold self in Hlen, Hmethods, Hs. eexists. split; [exact Hs|]. simpl.
  split; [|split].
  - apply (run_callbacks_bounded evs (registerExtenderCallbacks helpers)).
    simpl. lia.
  - rewrite <- Hlen. apply submseteq_length, NoDup_submseteq; [apply NoDup_elements|].
    intros v. by rewrite elem_of_elements, elem_of_list_to_set.
  - intros m n (y & Hy & [= <- <-])%lookup_set_to_map; [|done].
    split; [|apply method_count_le].
    apply elem_of_list_to_set in Hy.
    apply (elem_of_values _ _ _ _ Hmethods) in Hy.
    apply method_count_pos in Hy. lia.
Qed.

(** * More about the handler *)

Section reading.

Lemma read_request_cons b rest request_data :
  read_request (b :: rest) request_data =
    if headers_complete (request_data ++ [ascii_of_byte b])
    then request_data ++ [ascii_of_byte b]
    else read_request rest (request_data ++ [ascii_of_byte b]).
Proof. reflexivity. Qed.

Lemma read_request_spec input_stream request_data :
  let r := read_request input_stream request_data in
  (∃ k, r = request_data ++ take k (ascii_of_byte <$> input_stream))
  ∧ (r = request_data ++ (ascii_of_byte <$> input_stream)
     ∨ headers_complete r = true)
  ∧ (∀ n, (length request_data < n < length r)%nat →
       headers_complete (take n r) = false).
Proof.
  revert request_data.
  induction input_stream as [|b rest IH]; intros request_data; cbv zeta.
  - change (read_request [] request_data) with request_data.
    rewrite fmap_nil, app_nil_r.
    split; [exists 0%nat; by rewrite app_nil_r|].
    split; [by left|]. intros n. lia.
  - rewrite read_request_cons, fmap_cons.
    destruct (headers_complete (request_data ++ [ascii_of_byte b])) eqn:Hc.
    + split; [by exists 1%nat|]. split; [by right|].
      intros n. rewrite length_app. simpl. lia.
    + destruct (IH (request_data ++ [ascii_of_byte b])) as ([k Hk] & Hstop & Hfirst).
      split; [|split].
      * exists (S k). rewrite Hk. by rewrite <- (assoc_L (++)).
      * destruct Hstop as [->|?]; [left|by right]. by rewrite <- (assoc_L (++)).
      * intros n Hn. rewrite length_app in Hfirst. simpl in Hfirst.
        destruct (decide (n = length request_data + 1)%nat) as [->|Hne].
        -- rewrite Hk, take_app_length'; [done|]. rewrite length_app. simpl. lia.
        -- apply Hfirst. lia.
Qed.

End reading.

(** X7. The read loop consumes a prefix of the stream and stops at the
    first point where the last four characters are CR LF CR LF: what it
    returns is the whole stream or ends with that terminator, and no
    shorter prefix of it ends with the terminator. Bytes after the
    terminator are never read. *)
Theorem read_request_stops_at_first_terminator input_stream :
  let request_data := read_request input_stream [] in
  request_data `prefix_of` (ascii_of_byte <$> input_stream)
  ∧ (request_data = (ascii_of_byte <$> input_stream)
     ∨ headers_complete request_data = true)
  ∧ (∀ n, (n < length request_data)%nat →
       headers_complete (take n request_data) = false).
Proof.
  intros request_data.
  destruct (read_request_spec input_stream []) as ([k Hk] & Hstop & Hfirst).
  fold request_data in Hk, Hstop, Hfirst. simpl in *.
  split; [|split].
  - rewrite Hk. apply prefix_take.
  - exact Hstop.
  - intros [|n] Hn; [by rewrite take_0|]. apply Hfirst. lia.
Qed.

(** A stream that ends before the terminator is handled like any other. *)
Example request_without_terminator :
  written (RequestHandler_run (registerExtenderCallbacks sample_helpers)
             (bytes_of_string "GET /health"))
  = written (RequestHandler_run (registerExtenderCallbacks sample_helpers)
               (request_bytes "GET /health HTTP/1.1")).
Proof. reflexivity. Qed.

Section routing.

Implicit Types (extender : BurpExtender).

Lemma route_any_method extender method1 method2 path :
  method1 ≠ "OPTIONS" → method2 ≠ "OPTIONS" →
  route extender method1 path = route extender method2 path.
Proof.
  intros H1 H2. unfold route.
  by rewrite !(bool_decide_eq_false_2 (_ = "OPTIONS")) by done.
Qed.

Lemma history_item_route_status extender path :
  match history_item_route extender path with
  | Ok (status, _) =>
      (status = "200 OK" ∨ status = "404 Not Found")
      ∧ ∃ index, py_int (default "" (last (split path "/"))) = Ok index
  | Raise _ => ∃ e, py_int (default "" (last (split path "/"))) = Raise e
  end.
Proof.
  unfold history_item_route.
  destruct (last_split path "/") as [segment ->]. simpl.
  destruct (py_int segment) as [index|e]; simpl; [|by eexists].
  destruct (get_history_item extender index) as [item|]; [case_bool_decide|];
    (split; [auto|by eexists]).
Qed.

Lemma utf8_encode_ascii_bytes (s : string) :
  all_ascii s = true → Forall (λ b, (Byte.to_N b < 128)%N) (utf8_encode s).
Proof.
  induction s as [|c s IH]; simpl; [constructor|].
  intros [Hc Hs]%andb_prop. rewrite Hc. constructor; [|by apply IH].
  clear -Hc. destruct c as [[] [] [] [] [] [] [] []]; by vm_compute in Hc |- *.
Qed.

Lemma format_response_ascii status body :
  all_ascii status = true → all_ascii body = true →
  all_ascii (format_response status body) = true.
Proof.
  intros Hs Hb. unfold format_response, cors_headers.
  rewrite !all_ascii_app, Hs, Hb, str_of_int_ascii. reflexivity.
Qed.

End routing.

Lemma route_status_cases extender method path status body :
  route extender method path = Ok (status, body) →
  (status = "200 OK" ∨ status = "400 Bad Request" ∨ status = "404 Not Found")
  ∧ (status = "400 Bad Request" ↔
       method ≠ "OPTIONS"
       ∧ startswith path "/history/" = true
       ∧ ∃ e, py_int (default "" (last (split path "/"))) = Raise e).
Proof.
  unfold route.
  case_bool_decide as Hm.
  { intros [= <- <-]. split; [auto|]. split; [done|]. by intros (? & _). }
  case_bool_decide as Hhealth.
  { intros [= <- <-]. split; [auto|]. split; [done|].
    intros (_ & Hp & _). by rewrite Hhealth in Hp. }
  case_bool_decide as Hhistory.
  { intros [= <- <-]. split; [auto|]. split; [done|].
    intros (_ & Hp & _). by rewrite Hhistory in Hp. }
  destruct (startswith path "/history/") eqn:Hp.
  { pose proof (history_item_route_status extender path) as Hr.
    destruct (history_item_route extender path) as [[st bd]|e].
    - destruct Hr as [Hst [index Hi]]. intros [= <- <-].
      split; [destruct Hst; auto|]. split.
      + intros Heq. rewrite Heq in Hst. by destruct Hst.
      + intros (_ & _ & e & He). by rewrite Hi in He.
    - intros [= <- <-]. split; [auto|]. by split. }
  case_bool_decide as Hstats.
  { destruct (get_stats extender); simpl; [|done].
    intros [= <- <-]. split; [auto|]. split; [done|]. by intros (_ & ? & _). }
  intros [= <- <-]. split; [auto|]. split; [done|]. by intros (_ & ? & _).
Qed.

(** X8. The status line is one of three: 200 OK, 400 Bad Request, 404
    Not Found. 400 is sent exactly for a request that is not OPTIONS,
    whose path starts with [/history/] and whose last path segment [int]
    rejects. *)
Theorem route_statuses extender method path status body :
  route extender method path = Ok (status, body) →
  (status = "200 OK" ∨ status = "400 Bad Request" ∨ status = "404 Not Found")
  ∧ (status = "400 Bad Request" ↔
       method ≠ "OPTIONS"
       ∧ startswith path "/history/" = true
       ∧ ∃ e, py_int (default "" (last (split path "/"))) = Raise e).
Proof. apply route_status_cases. Qed.

Lemma route_statuses_witness :
  "400 Bad Request" = "400 Bad Request" ↔
    "GET" ≠ "OPTIONS"
    ∧ startswith "/history/abc" "/history/" = true
    ∧ ∃ e, py_int (default "" (last (split "/history/abc" "/"))) = Raise e.
Proof.
  apply (route_statuses (registerExtenderCallbacks sample_helpers) "GET"
           "/history/abc" "400 Bad Request"
           (dumps (JObj [("error", JStr "Invalid index")]) None)).
  reflexivity.
Defined.

(** X9. A response is written exactly when the request line has at
    least two space-delimited tokens. *)
Theorem response_iff_two_tokens helpers evs input_stream :
  let extender := run_callbacks (registerExtenderCallbacks helpers) evs in
  written (RequestHandler_run extender input_stream) ≠ []
  ↔ (2 ≤ length (request_line_parts input_stream))%nat.
Proof.
  intros extender.
  destruct (request_line_parts input_stream) as [|method [|path rest]] eqn:Hparts.
  - split; [|simpl; lia]. intros Hw. exfalso. apply Hw.
    revert Hparts. unfold request_line_parts, RequestHandler_run.
    destruct (split _ CRLF) as [|line lines]; [done|]. by intros ->.
  - split; [|simpl; lia]. intros Hw. exfalso. apply Hw.
    revert Hparts. unfold request_line_parts, RequestHandler_run.
    destruct (split _ CRLF) as [|line lines]; [done|]. by intros ->.
  - split; [simpl; lia|]. intros _.
    rewrite (run_parsed _ _ _ _ _ Hparts).
    destruct (route_ok helpers evs method path) as (status & body & Hr & _).
    fold extender in Hr. by rewrite Hr.
Qed.

(** X10. Every byte the handler writes is below 128: the response is
    pure ASCII whatever the captured traffic contains. *)
Theorem response_is_ascii helpers evs input_stream :
  let extender := run_callbacks (registerExtenderCallbacks helpers) evs in
  Forall (λ b, (Byte.to_N b < 128)%N)
    (written (RequestHandler_run extender input_stream)).
Proof.
  intros extender. unfold RequestHandler_run.
  destruct (split _ CRLF) as [|line lines]; [constructor|].
  destruct (split line " ") as [|method [|path rest]]; [constructor..|].
  destruct (route_ok helpers evs method path) as (status & body & Hr & Hbody).
  fold extender in Hr. rewrite Hr.
  change (Forall (λ b, (Byte.to_N b < 128)%N)
            (utf8_encode (format_response status body))).
  apply utf8_encode_ascii_bytes, format_response_ascii; [|done].
  destruct (route_status_cases _ _ _ _ _ Hr) as [[->|[->| ->]] _]; reflexivity.
Qed.

(** X11. Apart from OPTIONS the method is never looked at, and nothing
    after the second token is: two requests with the same path get the
    same outcome, whatever their methods, versions and headers. *)
Theorem response_depends_on_path_only extender input1 input2
    method1 method2 path rest1 rest2 :
  request_line_parts input1 = method1 :: path :: rest1 →
  request_line_parts input2 = method2 :: path :: rest2 →
  method1 ≠ "OPTIONS" → method2 ≠ "OPTIONS" →
  RequestHandler_run extender input1 = RequestHandler_run extender input2.
Proof.
  intros H1 H2 Hm1 Hm2.
  rewrite (run_parsed _ _ _ _ _ H1), (run_parsed _ _ _ _ _ H2).
  by rewrite (route_any_method extender method1 method2).
Qed.

Lemma response_depends_on_path_only_witness :
  RequestHandler_run (registerExtenderCallbacks sample_helpers)
    (request_bytes "DELETE /history HTTP/1.0")
  = RequestHandler_run (registerExtenderCallbacks sample_helpers)
      (bytes_of_string ("GET /history HTTP/1.1" +:+ CRLF +:+ "Host: x" +:+ CRLF +:+ CRLF)).
Proof.
  apply (response_depends_on_path_only _ _ _ "DELETE" "GET" "/history"
           ["HTTP/1.0"] ["HTTP/1.1"]); [reflexivity|reflexivity|done|done].
Defined.

(** * Decimal indices: from the client's path to the store *)

Section decimal.

Lemma string_app_nil_r (s : string) : s +:+ "" = s.
Proof.
  induction s as [|c s IH]; [done|].
  change (String c (s +:+ "") = String c s). by rewrite IH.
Qed.

Lemma rev_app_app (s1 s2 s3 : string) :
  String.rev_app s1 s2 +:+ s3 = String.rev_app s1 (s2 +:+ s3).
Proof. revert s2. induction s1 as [|c s1 IH]; intros s2; simpl; [done|]. apply IH. Qed.

Lemma rev_app_rev_app (s1 s2 s3 : string) :
  String.rev_app (String.rev_app s1 s2) s3 = String.rev_app s2 (s1 +:+ s3).
Proof.
  revert s2. induction s1 as [|c s1 IH]; intros s2; simpl; [done|].
  by rewrite IH.
Qed.

Lemma rev_involutive (s : string) : String.rev (String.rev s) = s.
Proof.
  unfold String.rev. rewrite rev_app_rev_app. simpl. apply string_app_nil_r.
Qed.

Lemma all_chars_impl (P Q : ascii → bool) (s : string) :
  (∀ c, P c = true → Q c = true) → all_chars P s = true → all_chars Q s = true.
Proof.
  intros HPQ. induction s as [|c s IH]; simpl; [done|].
  intros [Hc Hs]%andb_prop. by rewrite (HPQ _ Hc), IH.
Qed.

Lemma all_chars_rev_app test (s1 s2 : string) :
  all_chars test (String.rev_app s1 s2) = all_chars test s1 && all_chars test s2.
Proof.
  revert s2. induction s1 as [|c s1 IH]; intros s2; simpl; [done|].
  rewrite IH. simpl. destruct (test c), (all_chars test s1); done.
Qed.

Lemma lstrip_no_space (s : string) :
  all_chars (λ c, negb (is_space c)) s = true → lstrip s = s.
Proof.
  destruct s as [|c s]; simpl; [done|].
  intros [Hc _]%andb_prop. by destruct (is_space c).
Qed.

Lemma strip_no_space (s : string) :
  all_chars (λ c, negb (is_space c)) s = true → strip s = s.
Proof.
  intros Hs. unfold strip. rewrite (lstrip_no_space s Hs).
  rewrite lstrip_no_space; [apply rev_involutive|].
  unfold String.rev. by rewrite all_chars_rev_app, Hs.
Qed.

Lemma string_of_uint_digits (d : Decimal.uint) :
  all_chars is_digit (NilEmpty.string_of_uint d) = true.
Proof. induction d; simpl; done. Qed.

Lemma digits_value_acc (d : Decimal.uint) (acc : positive) :
  digits_value (Zpos acc) (NilEmpty.string_of_uint d)
  = Some (Zpos (Pos.of_uint_acc d acc)).
Proof.
  revert acc. induction d as [|d IH|d IH|d IH|d IH|d IH|d IH|d IH|d IH|d IH|d IH];
    intros acc; [done|..];
    cbn [NilEmpty.string_of_uint digits_value Pos.of_uint_acc];
    change (is_digit _) with true; cbv iota;
    rewrite <- IH; f_equal; vm_compute (Z.of_N _); lia.
Qed.

Lemma digits_value_of_uint (d : Decimal.uint) :
  digits_value 0 (NilEmpty.string_of_uint d) = Some (Z.of_N (Pos.of_uint d)).
Proof.
  induction d as [|d IH|d IH|d IH|d IH|d IH|d IH|d IH|d IH|d IH|d IH];
    [done|exact IH|..];
    cbn [NilEmpty.string_of_uint digits_value Pos.of_uint];
    change (is_digit _) with true; cbv iota;
    apply (digits_value_acc d).
Qed.

Lemma string_of_pos (p : positive) :
  ∃ c s, NilZero.string_of_uint (Pos.to_uint p) = String c s
    ∧ is_digit c = true
    ∧ all_chars is_digit s = true
    ∧ digits_value 0 (String c s) = Some (Zpos p).
Proof.
  pose proof (DecimalPos.Unsigned.of_to p) as Hp.
  pose proof (digits_value_of_uint (Pos.to_uint p)) as Hv. rewrite Hp in Hv.
  pose proof (string_of_uint_digits (Pos.to_uint p)) as Hd.
  unfold NilZero.string_of_uint.
  destruct (Pos.to_uint p) as [|d|d|d|d|d|d|d|d|d|d] eqn:Hu; [done|..];
    (eexists _, _; split; [reflexivity|]; split; [reflexivity|];
     split; [exact (proj2 (andb_prop _ _ Hd))|exact Hv]).
Qed.

Lemma py_int_digits (c : ascii) (s : string) :
  is_digit c = true → all_chars is_digit s = true →
  py_int (String c s) = unsigned_literal (String c s).
Proof.
  intros Hc Hs. unfold py_int, big_integer. rewrite strip_no_space.
  - clear Hs. destruct c as [[] [] [] [] [] [] [] []]; try discriminate Hc; reflexivity.
  - simpl. apply andb_true_intro. split.
    + clear Hs. destruct c as [[] [] [] [] [] [] [] []]; try discriminate Hc; reflexivity.
    + eapply all_chars_impl; [|exact Hs]. clear.
      intros c Hc. destruct c as [[] [] [] [] [] [] [] []]; try discriminate Hc; reflexivity.
Qed.

Lemma py_int_minus_digits (s : string) :
  all_chars is_digit s = true →
  py_int (String "-" s) = n ← unsigned_literal s; Ok (- n).
Proof.
  intros Hs.
  assert (Hn : all_chars (λ c, negb (is_space c)) s = true).
  { eapply all_chars_impl; [|exact Hs]. clear.
    intros c Hc. destruct c as [[] [] [] [] [] [] [] []]; try discriminate Hc; reflexivity. }
  unfold py_int. rewrite strip_no_space by exact Hn.
  by rewrite lstrip_no_space by exact Hn.
Qed.

Lemma py_int_str_of_int (z : Z) : py_int (str_of_int z) = Ok z.
Proof.
  destruct z as [|p|p]; [reflexivity|..].
  - unfold str_of_int. simpl.
    destruct (string_of_pos p) as (c & s & -> & Hc & Hs & Hv).
    rewrite py_int_digits by done. unfold unsigned_literal. by rewrite Hv.
  - unfold str_of_int. simpl.
    destruct (string_of_pos p) as (c & s & -> & Hc & Hs & Hv).
    rewrite py_int_minus_digits by (simpl; by rewrite Hc).
    unfold unsigned_literal. by rewrite Hv.
Qed.

End decimal.

(** X12. Parsing undoes printing: [int] applied to the decimal text of
    any integer gives that integer back, negative ones included. *)
Theorem py_int_of_decimal (z : Z) : py_int (str_of_int z) = Ok z.
Proof. apply py_int_str_of_int. Qed.

Section index_path.

Lemma split_go_no_slash (t cur : string) :
  all_chars (λ c, negb (Ascii.eqb c "/")) t = true →
  split_go "/" t 0 cur = [String.rev cur +:+ t].
Proof.
  revert cur. induction t as [|c t IH]; intros cur.
  - intros _. simpl. by rewrite string_app_nil_r.
  - cbn -[Ascii.ascii_dec String.rev]. intros [Hc Ht]%andb_prop.
    destruct (Ascii.ascii_dec "/" c) as [<-|Hne]; [done|].
    rewrite IH by done. unfold String.rev. cbn [String.rev_app].
    by rewrite !rev_app_app.
Qed.

Lemma str_of_int_no_slash (z : Z) :
  all_chars (λ c, negb (Ascii.eqb c "/")) (str_of_int z) = true.
Proof.
  assert (Hd : ∀ s, all_chars is_digit s = true →
                    all_chars (λ c, negb (Ascii.eqb c "/")) s = true).
  { intros s. apply all_chars_impl. clear.
    intros c Hc. destruct c as [[] [] [] [] [] [] [] []]; try discriminate Hc; reflexivity. }
  destruct z as [|p|p]; [reflexivity|..]; unfold str_of_int; simpl;
    destruct (string_of_pos p) as (c & s & -> & Hc & Hs & _);
    simpl; rewrite ?Hd by done;
    destruct c as [[] [] [] [] [] [] [] []]; try discriminate Hc; reflexivity.
Qed.

Lemma split_go_slash (t cur : string) :
  split_go "/" (String "/" t) 0 cur = String.rev cur :: split_go "/" t 0 "".
Proof. by destruct t. Qed.

Lemma last_segment_of_history_item_path (index : Z) :
  last (split (history_item_path index) "/") = Some (str_of_int index).
Proof.
  unfold history_item_path, split.
  change ("/history/" +:+ str_of_int index)
    with (String "/" ("history" +:+ String "/" (str_of_int index))).
  rewrite split_go_slash.
  change (split_go "/" ("history" +:+ String "/" (str_of_int index)) 0 "")
    with (split_go "/" (String "/" (str_of_int index)) 0 "yrotsih").
  rewrite split_go_slash.
  by rewrite split_go_no_slash by apply str_of_int_no_slash.
Qed.

Lemma startswith_history_item_path (index : Z) :
  startswith (history_item_path index) "/history/" = true.
Proof. unfold history_item_path, startswith. by destruct (str_of_int index). Qed.

End index_path.

(** X13. The path the client builds for an index, [/history/] followed
    by the index in decimal, reaches the positional lookup with exactly
    that index: the answer is 200 with the entry at that position when
    [0 <= index < len], and 404 "Item not found" otherwise; it is never
    400. *)
Theorem history_item_by_decimal_index helpers evs input_stream index rest :
  let extender := run_callbacks (registerExtenderCallbacks helpers) evs in
  request_line_parts input_stream = "GET" :: history_item_path index :: rest →
  written (RequestHandler_run extender input_stream) =
    utf8_encode
      (if bool_decide (0 ≤ index < Z.of_nat (length (get_history extender)))
       then match get_history extender !! Z.to_nat index with
            | Some item =>
                format_response "200 OK" (dumps (entry_to_json item) (Some 2%nat))
            | None => ""
            end
       else format_response "404 Not Found"
              (dumps (JObj [("error", JStr "Item not found")]) None)).
Proof.
  intros extender Hparts.
  rewrite (run_parsed _ _ _ _ _ Hparts).
  rewrite route_history_item;
    [|discriminate|apply startswith_history_item_path].
  rewrite history_item_route_cases; last first.
  { eapply Forall_impl; [apply well_formed_history|]. by intros h (_ & _ & ?). }
  rewrite last_segment_of_history_item_path. simpl default.
  rewrite py_int_str_of_int.
  unfold get_history_item, get_history.
  case_bool_decide as Hi.
  - rewrite (proj2 (Z.leb_le 0 index)), (proj2 (Z.ltb_lt index _)) by lia.
    cbn [andb].
    destruct (_history extender !! Z.to_nat index) as [item|] eqn:Hitem;
      [reflexivity|].
    apply lookup_ge_None in Hitem. lia.
  - destruct (Z.leb_spec 0 index) as [H0|H0]; [|reflexivity].
    destruct (Z.ltb_spec index (Z.of_nat (length (_history extender)))) as [H1|H1];
      [exfalso; lia|reflexivity].
Qed.

Lemma history_item_by_decimal_index_witness :
  let extender := run_callbacks (registerExtenderCallbacks sample_helpers)
                    (sample_events 1) in
  written (RequestHandler_run extender (request_bytes "GET /history/0 HTTP/1.1")) =
    utf8_encode (format_response "200 OK"
                   (dumps (entry_to_json (default ∅ (head (get_history extender))))
                      (Some 2%nat))).
Proof.
  intros extender. unfold extender.
  rewrite (history_item_by_decimal_index sample_helpers (sample_events 1)
             (request_bytes "GET /history/0 HTTP/1.1") 0 ["HTTP/1.1"])
    by (vm_compute; reflexivity).
  vm_compute. reflexivity.
Defined.

(** * The client's scan of the history *)

Section scan.

Implicit Types (item : gmap string value) (history : list (gmap string value)).

Lemma make_finding_of item type severity detail :
  severity = "HIGH" ∨ severity = "MEDIUM" ∨ severity = "INFO" →
  finding_of item
    (make_finding type severity (default (VStr "") (item !! "url"))
       (default (VStr "") (item !! "method")) detail).
Proof.
  intros Hs. unfold finding_of, make_finding.
  split; [|split].
  - repeat (rewrite lookup_insert_ne by done). by rewrite lookup_insert_eq.
  - repeat (rewrite lookup_insert_ne by done). by rewrite lookup_insert_eq.
  - repeat (rewrite lookup_insert_ne by done). rewrite lookup_insert_eq.
    destruct Hs as [->|[->| ->]]; auto.
Qed.

Lemma analyze_item_ok item u t :
  default (VStr "") (item !! "url") = VStr u →
  default (VStr "") (item !! "request_text") = VStr t →
  ∃ fs, analyze_item item = Ok fs
    ∧ (length fs ≤ 5)%nat
    ∧ Forall (finding_of item) fs.
Proof.
  intros Hu Ht. unfold analyze_item, any_param_in.
  pose proof (make_finding_of item) as Hf. rewrite Hu in Hf.
  rewrite Hu, Ht. cbn [value_lower mbind result_bind].
  destruct (existsb _ ssrf_params), (existsb _ sqli_params),
    (existsb _ sensitive_params), (contains _ (lower t)),
    (existsb _ path_params);
    (eexists; split; [reflexivity|]; split; [simpl; lia|]);
    repeat (constructor; [apply Hf; auto|]); constructor.
Qed.

Lemma analyze_item_exn item e : analyze_item item = Raise e → e = "AttributeError".
Proof.
  unfold analyze_item, any_param_in.
  destruct (default (VStr "") (item !! "url")) as [n|u|l];
    cbn [value_lower mbind result_bind]; try by intros [= <-].
  destruct (default (VStr "") (item !! "request_text")) as [n|t|l];
    cbn [value_lower mbind result_bind]; by intros [= <-].
Qed.

Lemma analyze_item_url_not_text item v :
  item !! "url" = Some v → (∀ s, v ≠ VStr s) →
  analyze_item item = Raise "AttributeError".
Proof.
  intros Hv Hns. unfold analyze_item, any_param_in. rewrite Hv. simpl default.
  destruct v as [n|u|l]; [done| |done]. by destruct (Hns u).
Qed.

Lemma analyze_loop_acc history findings :
  analyze_loop history findings =
    fs ← analyze_loop history []; Ok (findings ++ fs).
Proof.
  revert findings. induction history as [|item rest IH]; intros findings.
  - simpl. by rewrite app_nil_r.
  - cbn [analyze_loop]. destruct (analyze_item item) as [fs|e]; [|done].
    cbn [mbind result_bind]. rewrite (IH (findings ++ fs)), (IH ([] ++ fs)).
    destruct (analyze_loop rest []) as [l|e]; [|done].
    cbn [mbind result_bind]. by rewrite (assoc_L (++)).
Qed.

Lemma analyze_for_vulns_cons item rest :
  analyze_for_vulns (item :: rest) =
    fs ← analyze_item item; l ← analyze_for_vulns rest; Ok (fs ++ l).
Proof.
  unfold analyze_for_vulns. cbn [analyze_loop].
  destruct (analyze_item item) as [fs|e]; [|done].
  cbn [mbind result_bind]. by rewrite analyze_loop_acc.
Qed.

Lemma analyze_for_vulns_ok history :
  Forall (λ item, ∃ u t, default (VStr "") (item !! "url") = VStr u
                         ∧ default (VStr "") (item !! "request_text") = VStr t)
    history →
  ∃ fs, analyze_for_vulns history = Ok fs
    ∧ (length fs ≤ 5 * length history)%nat
    ∧ Forall (λ f, ∃ item, item ∈ history ∧ finding_of item f) fs.
Proof.
  induction 1 as [|item rest (u & t & Hu & Ht) _ (l & Hl & Hlen & Hall)].
  - exists []. by repeat split.
  - destruct (analyze_item_ok item u t Hu Ht) as (fs & Hfs & Hn & Hof).
    exists (fs ++ l). rewrite analyze_for_vulns_cons, Hfs, Hl.
    split; [done|]. split; [rewrite length_app; simpl; lia|].
    apply Forall_app. split.
    + eapply Forall_impl; [exact Hof|]. intros f Hf. exists item.
      split; [apply list_elem_of_here|done].
    + eapply Forall_impl; [exact Hall|]. intros f (it & Hit & Hf). exists it.
      split; [by apply list_elem_of_further|done].
Qed.

Lemma build_entry_text_fields self messageIsRequest message entry :
  build_entry self messageIsRequest message = Ok (Some entry) →
  ∃ u t, entry !! "url" = Some (VStr u) ∧ entry !! "request_text" = Some (VStr t).
Proof.
  unfold build_entry.
  destruct messageIsRequest; simpl; [done|].
  destruct (truthy_bytes (getRequest _)); simpl; [|done].
  destruct (truthy_bytes (getResponse _)) eqn:Hresp; simpl; [|done].
  destruct (analyzeRequest _ _) as [requestInfo|]; simpl; [|done].
  destruct (py_str _) as [url|]; simpl; [|done].
  destruct (comprehension py_str _) as [headers|]; simpl; [|done].
  destruct (analyzeResponse _ _) as [responseInfo|]; simpl; [|done].
  destruct (comprehension py_str _) as [response_headers|]; simpl; [|done].
  intros [= <-]. eexists _, _. by simplify_map_eq.
Qed.

End scan.


(** X14. The scan treats the items one by one: scanning a concatenation
    gives the findings of the first part followed by those of the second,
    and fails if either part fails. *)
Theorem analyze_for_vulns_app history1 history2 :
  analyze_for_vulns (history1 ++ history2) =
    l1 ← analyze_for_vulns history1;
    l2 ← analyze_for_vulns history2;
    Ok (l1 ++ l2).
Proof.
  induction history1 as [|item rest IH].
  - change (analyze_for_vulns []) with (Ok (@nil (gmap string value))).
    cbn [mbind result_bind app]. by destruct (analyze_for_vulns history2).
  - rewrite <- app_comm_cons, !analyze_for_vulns_cons, IH.
    destruct (analyze_item item) as [fs|e]; [|done].
    cbn [mbind result_bind].
    destruct (analyze_for_vulns rest) as [l1|e]; [|done].
    cbn [mbind result_bind].
    destruct (analyze_for_vulns history2) as [l2|e]; [|done].
    cbn [mbind result_bind]. by rewrite (assoc_L (++)).
Qed.

(** X15. Scanning what the server holds never fails, reports at most
    five findings per entry, and every finding carries the url and the
    method of an entry of the history and one of the severities HIGH,
    MEDIUM and INFO (LOW is never reported). *)
Theorem analyze_for_vulns_on_server_history helpers evs :
  let history := get_history (run_callbacks (registerExtenderCallbacks helpers) evs) in
  ∃ findings,
    analyze_for_vulns history = Ok findings
    ∧ (length findings ≤ 5 * length history)%nat
    ∧ Forall (λ f, ∃ item, item ∈ history ∧ finding_of item f) findings.
Proof.
  intros history. apply analyze_for_vulns_ok.
  apply Forall_forall. intros item (self & b & m & Hb)%elem_of_run_callbacks.
  apply build_entry_text_fields in Hb as (u & t & -> & ->). by exists u, t.
Qed.

(** X16. Items that have neither a [url] nor a [request_text] key give
    no findings: the defaults are empty strings, which contain none of
    the patterns. *)
Theorem analyze_for_vulns_without_text history :
  Forall (λ item, item !! "url" = None ∧ item !! "request_text" = None) history →
  analyze_for_vulns history = Ok [].
Proof.
  induction 1 as [|item rest [Hu Ht] _ IH]; [done|].
  rewrite analyze_for_vulns_cons, IH.
  unfold analyze_item, any_param_in. by rewrite Hu, Ht.
Qed.

Lemma analyze_for_vulns_without_text_witness :
  analyze_for_vulns [∅; {["method" := VStr "GET"]}] = Ok [].
Proof.
  apply analyze_for_vulns_without_text.
  repeat constructor.
Defined.

(** X17. One item whose [url] is not a string makes the whole scan fail
    with AttributeError; the findings of the other items are lost. *)
Theorem analyze_for_vulns_url_not_text history item v :
  item ∈ history →
  item !! "url" = Some v →
  (∀ s, v ≠ VStr s) →
  analyze_for_vulns history = Raise "AttributeError".
Proof.
  intros Hin Hv Hns. induction history as [|item' rest IH].
  - by apply elem_of_nil in Hin.
  - rewrite analyze_for_vulns_cons.
    apply elem_of_cons in Hin as [<-|Hin].
    + by rewrite (analyze_item_url_not_text item v).
    + destruct (analyze_item item') as [fs|e] eqn:He.
      * cbn [mbind result_bind]. by rewrite IH.
      * cbn [mbind result_bind]. by rewrite (analyze_item_exn _ _ He).
Qed.

Lemma analyze_for_vulns_url_not_text_witness :
  analyze_for_vulns [{["url" := VStr "http://example.com/?file=a"]};
                     {["url" := VInt 3]}]
  = Raise "AttributeError".
Proof.
  apply (analyze_for_vulns_url_not_text _ {["url" := VInt 3]} (VInt 3)).
  - apply list_elem_of_further, list_elem_of_here.
  - reflexivity.
  - intros s. discriminate.
Defined.


Section double_report.

Lemma any_file_or_path (params : list string) (text : string) :
  In "file=" params → In "path=" params →
  contains "file=" text = true ∨ contains "path=" text = true →
  existsb (λ p, contains p text) params = true.
Proof.
  intros Hf Hp [H|H]; apply existsb_exists; eauto.
Qed.

Lemma analyze_item_file_or_path item u fs :
  analyze_item item = Ok fs →
  item !! "url" = Some (VStr u) →
  contains "file=" (lower u) = true ∨ contains "path=" (lower u) = true →
  make_finding "Potential SSRF" "HIGH" (VStr u) (default (VStr "") (item !! "method"))
    "URL contains parameter that may accept user-controlled URLs" ∈ fs
  ∧ make_finding "Potential Path Traversal" "HIGH" (VStr u)
      (default (VStr "") (item !! "method"))
      "URL contains file/path parameter - test for LFI/RFI" ∈ fs.
Proof.
  intros Hfs Hu Hc. revert Hfs. unfold analyze_item, any_param_in.
  rewrite Hu. change (default (VStr "") (Some (VStr u))) with (VStr u).
  cbn [value_lower mbind result_bind].
  rewrite (any_file_or_path ssrf_params) by (simpl; tauto).
  rewrite (any_file_or_path path_params) by (simpl; tauto).
  destruct (default (VStr "") (item !! "request_text")) as [n|t|l];
    cbn [value_lower mbind result_bind]; [done| |done].
  intros [= <-]. split.
  - apply list_elem_of_here.
  - apply list_elem_of_further. rewrite !elem_of_app. do 3 right.
    apply list_elem_of_here.
Qed.

End double_report.

(** X18. A url that contains [file=] or [path=], in any letter case, is
    reported twice: as a potential SSRF and as a potential path traversal. *)
Theorem file_and_path_parameters_are_reported_twice history findings item u :
  analyze_for_vulns history = Ok findings →
  item ∈ history →
  item !! "url" = Some (VStr u) →
  contains "file=" (lower u) = true ∨ contains "path=" (lower u) = true →
  make_finding "Potential SSRF" "HIGH" (VStr u) (default (VStr "") (item !! "method"))
    "URL contains parameter that may accept user-controlled URLs" ∈ findings
  ∧ make_finding "Potential Path Traversal" "HIGH" (VStr u)
      (default (VStr "") (item !! "method"))
      "URL contains file/path parameter - test for LFI/RFI" ∈ findings.
Proof.
  intros Hok Hin Hu Hc. revert findings Hok.
  induction history as [|item' rest IH]; intros findings.
  - by apply elem_of_nil in Hin.
  - rewrite analyze_for_vulns_cons.
    destruct (analyze_item item') as [fs|e] eqn:Hfs; [|done].
    cbn [mbind result_bind].
    destruct (analyze_for_vulns rest) as [l|e]; [|done].
    cbn [mbind result_bind]. intros [= <-].
    rewrite !elem_of_app.
    apply elem_of_cons in Hin as [->|Hin].
    + destruct (analyze_item_file_or_path _ _ _ Hfs Hu Hc). auto.
    + destruct (IH Hin l eq_refl). auto.
Qed.

Lemma file_and_path_parameters_are_reported_twice_witness :
  ∃ findings,
    analyze_for_vulns [{["url" := VStr "http://example.com/?FILE=a"]}] = Ok findings
    ∧ make_finding "Potential SSRF" "HIGH" (VStr "http://example.com/?FILE=a")
        (default (VStr "")
           (({["url" := VStr "http://example.com/?FILE=a"]} : gmap string value) !! "method"))
        "URL contains parameter that may accept user-controlled URLs" ∈ findings
    ∧ make_finding "Potential Path Traversal" "HIGH" (VStr "http://example.com/?FILE=a")
        (default (VStr "")
           (({["url" := VStr "http://example.com/?FILE=a"]} : gmap string value) !! "method"))
        "URL contains file/path parameter - test for LFI/RFI" ∈ findings.
Proof.
  destruct (analyze_for_vulns [{["url" := VStr "http://example.com/?FILE=a"]}])
    as [findings|e] eqn:Hok; [|vm_compute in Hok; discriminate].
  exists findings. split; [reflexivity|].
  apply (file_and_path_parameters_are_reported_twice _ _ _ _ Hok).
  - apply list_elem_of_here.
  - vm_compute. reflexivity.
  - left. vm_compute. reflexivity.
Defined.
